(** * widgetastic.utils: [Version] and [VersionPick]

    A shallow embedding of the version type and of the version picker of
    [src/widgetastic/utils.py], with the sequence numbers of [Widgetable]
    and the functions on text of the same file, read as Python 3 (CPython
    3.7 or later):

    - a [str] is a sequence of code points; the model keeps the code points
      below 256, one [ascii] each;
    - [int] is unbounded ([Z]); the [float] of a suffix number is its binary64
      bit pattern (a [Z]), which orders non-negative floats as Python does;
    - comparing an [int] with a [str] by [<] raises [TypeError];
    - a [dict] iterates in insertion order; [sorted] is CPython's list sort
      (3.7 to 3.11) on a list shorter than 64 elements (one natural run
      extended by binary insertion);
    - the result of an operation that can raise is a [result]: [Ok] a value or
      [Raise] an exception. *)

From Stdlib Require Import ZArith List Bool Ascii String Lia.
From Stdlib Require Import DecimalString Permutation Sorted.
Import ListNotations.

Local Open Scope string_scope.
Local Open Scope Z_scope.

(** ** Characters and strings of the host language *)

Module Py.

Definition code (c : ascii) : N := N_of_ascii c.

Definition between (lo hi : N) (c : ascii) : bool :=
  ((lo <=? code c) && (code c <=? hi))%N.

(** [\d] on the code points below 256. *)
Definition is_digit (c : ascii) : bool := between 48 57 c.

(** [[a-z]]. *)
Definition is_lower (c : ascii) : bool := between 97 122 c.

(** [\s] and the characters [str.strip()] removes: TAB..CR, FS..US, space,
    NEL and NBSP. *)
Definition is_space (c : ascii) : bool :=
  between 9 13 c || between 28 32 c || (code c =? 133)%N || (code c =? 160)%N.

Definition is_newline (c : ascii) : bool := (code c =? 10)%N.

Definition is_empty (s : string) : bool :=
  match s with EmptyString => true | String _ _ => false end.

Fixpoint take_while (p : ascii -> bool) (s : string) : string :=
  match s with
  | String c s' => if p c then String c (take_while p s') else ""
  | EmptyString => ""
  end.

Fixpoint drop_while (p : ascii -> bool) (s : string) : string :=
  match s with
  | String c s' => if p c then drop_while p s' else s
  | EmptyString => ""
  end.

(** [s.rstrip()] *)
Fixpoint rstrip (s : string) : string :=
  match s with
  | String c s' =>
      let r := rstrip s' in
      if is_space c && is_empty r then "" else String c r
  | EmptyString => ""
  end.

(** [s.strip()] *)
Definition strip (s : string) : string := rstrip (drop_while is_space s).

(** [s.startswith(p)], returning what follows the prefix. *)
Fixpoint strip_prefix (p s : string) : option string :=
  match p, s with
  | EmptyString, _ => Some s
  | String a p', String b s' => if Ascii.eqb a b then strip_prefix p' s' else None
  | String _ _, EmptyString => None
  end.

(** [s.split(sep)] for a one-character separator. *)
Fixpoint split (sep : ascii) (s : string) : list string :=
  match s with
  | EmptyString => [""]
  | String c s' =>
      if Ascii.eqb c sep then "" :: split sep s'
      else match split sep s' with
           | h :: t => String c h :: t
           | [] => [String c ""]
           end
  end.

(** [sep.join(l)] *)
Fixpoint join (sep : string) (l : list string) : string :=
  match l with
  | [] => ""
  | [x] => x
  | x :: l' => x ++ sep ++ join sep l'
  end.

(** [l[-1]] of a non-empty list and [l[:-1]]. *)
Definition last_item (l : list string) : option string :=
  match rev l with [] => None | x :: _ => Some x end.

Definition digit_value (c : ascii) : Z := Z.of_N (code c) - 48.

Fixpoint int_digits (acc : Z) (s : string) : option Z :=
  match s with
  | EmptyString => Some acc
  | String c s' =>
      if is_digit c then int_digits (10 * acc + digit_value c) s' else None
  end.

(** [int(s)] on a token of the scanner: a run of digits is its decimal value,
    anything else is refused ([ValueError] in Python). *)
Definition int (s : string) : option Z :=
  if is_empty s then None else int_digits 0 s.

(** [str(n)] of an [int]. *)
Definition str_of_int (n : Z) : string := NilZero.string_of_int (Z.to_int n).

(** [x < y] on [str]: by code points, a proper prefix first. *)
Definition str_lt (x y : string) : bool :=
  match String.compare x y with Lt => true | _ => false end.

(** *** [float]

    A non-negative binary64 is kept as its bit pattern: biased exponent times
    [2^52] plus the fraction.  On these patterns [=?] and [<?] are the [==] and
    [<] of the floats, [0] is [0.0] and [float_inf] is [inf]. *)

Definition float_inf : Z := 2047 * 2 ^ 52.

(** [d * 2^e <= n], for an exponent of either sign. *)
Definition scaled_le (d e n : Z) : bool :=
  if 0 <=? e then d * 2 ^ e <=? n else d <=? n * 2 ^ (- e).

(** The binary64 nearest to [n / d] (ties to even), for [0 <= n] and [0 < d]. *)
Definition float_of_ratio (n d : Z) : Z :=
  if n =? 0 then 0
  else
    let e0 := Z.log2 n - Z.log2 d in
    let fl := if scaled_le d e0 n then e0 else e0 - 1 in
    let ee := Z.max fl (-1022) in
    let sh := ee - 52 in
    let num := n * 2 ^ Z.max 0 (- sh) in
    let den := d * 2 ^ Z.max 0 sh in
    let q := num / den in
    let r := num mod den in
    let m := if 2 * r <? den then q
             else if den <? 2 * r then q + 1
             else if Z.even q then q else q + 1 in
    Z.min ((ee + 1022) * 2 ^ 52 + m) float_inf.

(** [float(s)] on a literal of the shape [\d+(?:\.\d+)?], the only shape the
    suffix pattern hands over; anything else is refused. *)
Definition float (s : string) : option Z :=
  let i := take_while is_digit s in
  match drop_while is_digit s with
  | EmptyString =>
      match int i with
      | Some n => Some (float_of_ratio n 1)
      | None => None
      end
  | String "."%char f =>
      match int i, int f with
      | Some n, Some m =>
          Some (float_of_ratio (n * 10 ^ Z.of_nat (String.length f) + m)
                               (10 ^ Z.of_nat (String.length f)))
      | _, _ => None
      end
  | String _ _ => None
  end.

(** [l[:n]]: the first [n] items, or all but the last [-n] when [n] is
    negative. *)
Definition slice_to {A : Type} (n : Z) (l : list A) : list A :=
  if 0 <=? n then firstn (Z.to_nat n) l
  else firstn (List.length l - Z.to_nat (- n)) l.

(** [c.lower()] on the code points below 256: the letters [A-Z] and the
    capital letters of Latin-1 move up by 32. *)
Definition lower_char (c : ascii) : ascii :=
  if between 65 90 c || between 192 214 c || between 216 222 c
  then ascii_of_N (code c + 32) else c.

Fixpoint map_chars (f : ascii -> ascii) (s : string) : string :=
  match s with
  | EmptyString => ""
  | String c s' => String (f c) (map_chars f s')
  end.

Fixpoint filter_chars (p : ascii -> bool) (s : string) : string :=
  match s with
  | EmptyString => ""
  | String c s' => if p c then String c (filter_chars p s') else filter_chars p s'
  end.

(** [s.lower()] *)
Definition lower (s : string) : string := map_chars lower_char s.

(** [s.replace(a, b)] for two characters. *)
Definition replace_char (a b : ascii) (s : string) : string :=
  map_chars (fun c => if Ascii.eqb c a then b else c) s.

End Py.

(** ** The two regular expressions of [Version] *)

Module Re.
Import Py.

(** [SUFFIXES]: list of possible suffixes. *)
Definition SUFFIXES : list string := ["nightly"; "pre"; "alpha"; "beta"; "rc"].

(** [$]: the end of the string, or just before a final newline. *)
Definition at_dollar (s : string) : bool :=
  match s with
  | EmptyString => true
  | String c EmptyString => is_newline c
  | String _ (String _ _) => false
  end.

(** [(?:\d+(?:\.\d+)?)?] at the head of [s]: the text matched and the rest.
    The match is greedy.  Wherever the two expressions use it, what follows
    must be [-] or [$], which no digit and no dot satisfies, so a shorter
    alternative can never rescue a failed match. *)
Definition match_number (s : string) : string * string :=
  let d := take_while is_digit s in
  let r := drop_while is_digit s in
  if is_empty d then ("", s)
  else match r with
       | String "."%char r' =>
           let d' := take_while is_digit r' in
           if is_empty d' then (d, r)
           else (d ++ "." ++ d', drop_while is_digit r')
       | _ => (d, r)
       end.

(** The first of the alternatives [-nightly..|-pre..|-alpha..|-beta..|-rc..]
    whose name is at the head of [s] (after the dash). *)
Fixpoint match_name (names : list string) (s : string) : option (string * string) :=
  match names with
  | [] => None
  | n :: names' =>
      match strip_prefix n s with
      | Some r => Some (n, r)
      | None => match_name names' s
      end
  end.

(** One group [-name(?:\d+(?:\.\d+)?)?]. *)
Definition match_group (s : string) : option (string * string) :=
  match s with
  | String "-"%char s' =>
      match match_name SUFFIXES s' with
      | Some (n, r) =>
          let (num, r') := match_number r in
          Some ("-" ++ n ++ num, r')
      | None => None
      end
  | _ => None
  end.

(** [(?:group)+$]: one or more groups up to [$]. Each group consumes at least
    two characters, so [String.length s] is fuel enough. *)
Fixpoint match_block (fuel : nat) (s : string) : option (string * string) :=
  match fuel with
  | O => None
  | S fuel' =>
      match match_group s with
      | None => None
      | Some (g, r) =>
          if at_dollar r then Some (g, r)
          else match match_block fuel' r with
               | Some (b, r') => Some (g ++ b, r')
               | None => None
               end
      end
  end.

(** [component_re.findall]: regular expression that parses the main
    components of the version,
    [(?:\s*(\d+|[a-z]+|\.|(?:SUFFIXES_STR)+$))].  At each position the scanner
    skips white space and takes a run of digits, a run of lower-case letters,
    a dot, or a final block of suffixes; where none of these starts, no match
    begins in the white space just skipped either, and the search resumes
    one character further. *)
Fixpoint findall_from (fuel : nat) (s : string) : list string :=
  match fuel with
  | O => []
  | S fuel' =>
      match drop_while is_space s with
      | EmptyString => []
      | String c t' as t =>
          if is_digit c then
            take_while is_digit t :: findall_from fuel' (drop_while is_digit t)
          else if is_lower c then
            take_while is_lower t :: findall_from fuel' (drop_while is_lower t)
          else if Ascii.eqb c "." then
            "." :: findall_from fuel' t'
          else
            match match_block (String.length t) t with
            | Some (b, r) => b :: findall_from fuel' r
            | None => findall_from fuel' t'
            end
      end
  end.

Definition component_re_findall (s : string) : list string :=
  findall_from (String.length s) s.

(** [suffix_item_re.match(item).groups()] for
    [^([^0-9]+)(\d+(?:\.\d+)?)?$]; [None] when the item does not match. *)
Definition suffix_item_re_match (item : string) : option (string * option string) :=
  let not_digit := fun c => negb (is_digit c) in
  let g1 := take_while not_digit item in
  let r := drop_while not_digit item in
  if is_empty g1 then None
  else if is_empty r then Some (g1, None)
  else let (num, r') := match_number r in
       if at_dollar r' then Some (g1, Some num) else None.

End Re.

(** ** Data model *)

(** A component of a version: an integer, or a string that [int()] refused. *)
Inductive component : Type :=
| CInt (n : Z)
| CStr (s : string).

(** The attributes of a [Version] object. *)
Record Version : Type := {
  vstring : string;
  version : list component;
  suffix : option (list string)
}.

(** The values the constructor and the comparisons can be handed. *)
Inductive atom : Type :=
| AStr (s : string)
| AInt (n : Z).

Inductive object : Type :=
| PyNone
| PyStr (s : string)
| PyInt (n : Z)
| PyList (items : list atom)
| PyTuple (items : list atom)
| PyVersion (v : Version).

(** ** Exceptions *)

(** The text of an exception. The message of a failed pick is formatted from
    the [repr] of the version asked for and of the keys; it is kept as these
    two values. *)
Inductive message : Type :=
| Msg (text : string)
| MsgNotFound (version : Version) (versions : list Version).

Inductive exn : Type :=
| ValueError (msg : message)
| TypeError
| AttributeError.

Inductive result (A : Type) : Type :=
| Ok (a : A)
| Raise (e : exn).

Arguments Ok {A} a.
Arguments Raise {A} e.

Definition bind {A B : Type} (r : result A) (k : A -> result B) : result B :=
  match r with
  | Ok a => k a
  | Raise e => Raise e
  end.

Notation "x <- r ;; k" := (bind r (fun x => k))
  (at level 61, r at next level, right associativity).

Fixpoint mapM {A B : Type} (f : A -> result B) (l : list A) : result (list B) :=
  match l with
  | [] => Ok []
  | x :: l' => y <- f x ;; ys <- mapM f l' ;; Ok (y :: ys)
  end.

(** ** Comparison of lists and tuples *)

Section Sequences.
Context {A : Type}.
Variable eqb : A -> A -> bool.
Variable ltb : A -> A -> result bool.

(** [a == b] on lists: same length and equal items. *)
Fixpoint list_eq (a b : list A) : bool :=
  match a, b with
  | [], [] => true
  | x :: a', y :: b' => eqb x y && list_eq a' b'
  | _, _ => false
  end.

(** [a < b] on lists: the first pair of items that are not [==] decides by
    its own [<]; when one list runs out first, the shorter one is less. *)
Fixpoint list_lt (a b : list A) : result bool :=
  match a, b with
  | x :: a', y :: b' => if eqb x y then list_lt a' b' else ltb x y
  | [], _ :: _ => Ok true
  | _, [] => Ok false
  end.
End Sequences.

Definition component_eq (a b : component) : bool :=
  match a, b with
  | CInt x, CInt y => x =? y
  | CStr x, CStr y => String.eqb x y
  | _, _ => false
  end.

(** [<] between an [int] and a [str] raises [TypeError]. *)
Definition component_lt (a b : component) : result bool :=
  match a, b with
  | CInt x, CInt y => Ok (x <? y)
  | CStr x, CStr y => Ok (Py.str_lt x y)
  | _, _ => Raise TypeError
  end.

(** A pair (position of the suffix in [SUFFIXES], float of its number). *)
Definition suffix_pair : Type := (Z * Z)%type.

Definition pair_eq (a b : suffix_pair) : bool :=
  (fst a =? fst b) && (snd a =? snd b).

Definition pair_lt (a b : suffix_pair) : result bool :=
  Ok (if fst a =? fst b then snd a <? snd b else fst a <? fst b).

(** ** class Version *)

Module Version.
Import Py.

(** [SUFFIXES.index(x)] *)
Fixpoint index_from (i : Z) (x : string) (l : list string) : option Z :=
  match l with
  | [] => None
  | y :: l' => if String.eqb y x then Some i else index_from (i + 1) x l'
  end.

Definition SUFFIXES_index (x : string) : result Z :=
  match index_from 0 x Re.SUFFIXES with
  | Some i => Ok i
  | None => Raise (ValueError (Msg "tuple.index(x): x not in tuple"))
  end.

Definition str_of_atom (a : atom) : string :=
  match a with
  | AStr s => s
  | AInt n => str_of_int n
  end.

(** [lambda x: x and x != '.'] *)
Definition is_component (x : string) : bool :=
  negb (is_empty x) && negb (String.eqb x ".").

(** [try: components[i] = int(components[i]) except ValueError: pass] *)
Definition to_component (x : string) : component :=
  match int x with
  | Some n => CInt n
  | None => CStr x
  end.

(** Check if we have a version suffix which denotes pre-release: when the
    last component starts with a dash, it is chopped off the components and
    split on the dashes into the suffix. *)
Definition chop_suffix (components : list string) : option (list string) * list string :=
  match last_item components with
  | Some (String "-"%char chopped) =>
      (Some (split "-" chopped), removelast components)
  | _ => (None, components)
  end.

(** [parse], from the test on the three names of the newest version on: what
    it does with the string [vstring] has become. *)
Definition parse_text (vstring : string) : Version :=
  let vstring :=
    if existsb (String.eqb vstring) ["master"; "latest"; "upstream"]
    then "master" else vstring in
  let components := filter is_component (Re.component_re_findall vstring) in
  let '(suffix, components) := chop_suffix components in
  {| vstring := vstring;
     version := map to_component components;
     suffix := suffix |}.

Definition __str__ (self : Version) : string := vstring self.

(** The head of [parse]: [None] is refused, a list or tuple is joined with
    dots, any other true value is turned into a stripped string, and a false
    value is left as it is (the empty string stays; [0] is no string and the
    scanner raises [TypeError] on it). *)
Definition coerce (vstring : object) : result string :=
  match vstring with
  | PyNone => Raise (ValueError (Msg "Version string cannot be None"))
  | PyList items | PyTuple items => Ok (join "." (map str_of_atom items))
  | PyStr s => Ok (if is_empty s then s else strip s)
  | PyInt n => if n =? 0 then Raise TypeError else Ok (strip (str_of_int n))
  | PyVersion v => Ok (strip (__str__ v))
  end.

Definition parse (vstring : object) : result Version :=
  s <- coerce vstring ;; Ok (parse_text s).

(** [Version(vstring)] *)
Definition __init__ (vstring : object) : result Version := parse vstring.

(** [Version(s)] for a string [s]: it never raises. *)
Definition of_str (s : string) : Version :=
  parse_text (if is_empty s then s else strip s).

(** [hash(self.vstring)].  The hash of a string is kept as the string itself:
    Python's hash of a [str] is taken to be free of collisions, so two hashes
    agree exactly when the strings do. *)
Definition __hash__ (self : Version) : string := vstring self.

Definition normalize_item (item : string) : result suffix_pair :=
  match Re.suffix_item_re_match item with
  | None => Raise AttributeError
  | Some (suff_t, suff_ver) =>
      suff_ver <-
        match suff_ver with
        | None => Ok 0
        | Some s =>
            if (String.length s =? 0)%nat then Ok 0
            else match float s with
                 | Some f => Ok f
                 | None => Raise (ValueError (Msg "could not convert string to float"))
                 end
        end ;;
      suff_t <- SUFFIXES_index suff_t ;;
      Ok (suff_t, suff_ver)
  end.

(** Turns the string suffixes to numbers: a list of 2-tuples, the position of
    the suffix in [SUFFIXES] and the numeric value of its number, 0 if absent.
    The property is cached; it is a function of [suffix], which nothing
    changes after [parse]. *)
Definition normalized_suffix (self : Version) : result (list suffix_pair) :=
  match suffix self with
  | None => Ok []
  | Some items => mapM normalize_item items
  end.

(** [latest()] and [lowest()]: the class keeps the first object it builds;
    the object is [Version('latest')], respectively [Version('lowest')]. *)
Definition latest : Version := of_str "latest".
Definition lowest : Version := of_str "lowest".

Definition type_name (o : object) : string :=
  match o with
  | PyNone => "NoneType"
  | PyStr _ => "str"
  | PyInt _ => "int"
  | PyList _ => "list"
  | PyTuple _ => "tuple"
  | PyVersion _ => "Version"
  end.

(** [other] if it is a [Version], [Version(other)] otherwise. *)
Definition as_version (other : object) : result Version :=
  match other with
  | PyVersion v => Ok v
  | _ => __init__ other
  end.

(** Any exception raised on the way makes the answer [False]. *)
Definition __eq__ (self : Version) (other : object) : bool :=
  match as_version other with
  | Raise _ => false
  | Ok other =>
      if list_eq component_eq (version self) (version other) then
        match normalized_suffix self, normalized_suffix other with
        | Ok a, Ok b => list_eq pair_eq a b
        | _, _ => false
        end
      else false
  end.

Definition is_None {A : Type} (o : option A) : bool :=
  match o with None => true | Some _ => false end.

Definition __lt__ (self : Version) (other : object) : result bool :=
  match as_version other with
  | Raise _ =>
      Raise (ValueError (Msg ("Cannot compare Version to " ++ type_name other)))
  | Ok other =>
      if __eq__ self (PyVersion other) then Ok false
      else if __eq__ self (PyVersion latest) || __eq__ other (PyVersion lowest)
      then Ok false
      else if __eq__ self (PyVersion lowest) || __eq__ other (PyVersion latest)
      then Ok true
      else
        (* Start deciding on versions *)
        less <- list_lt component_eq component_lt (version self) (version other) ;;
        if less then Ok true
        (* Use suffixes to decide *)
        else if is_None (suffix self) && is_None (suffix other) then Ok false
        else if is_None (suffix self) then Ok false
        else if is_None (suffix other) then Ok true
        else
          a <- normalized_suffix self ;;
          b <- normalized_suffix other ;;
          list_lt pair_eq pair_lt a b
  end.

Definition __le__ (self : Version) (other : object) : result bool :=
  less <- __lt__ self other ;;
  Ok (less || __eq__ self other).

Definition __gt__ (self : Version) (other : object) : result bool :=
  le <- __le__ self other ;; Ok (negb le).

Definition __ge__ (self : Version) (other : object) : result bool :=
  less <- __lt__ self other ;; Ok (negb less).

(** [self in {self.lowest(), self.latest()}]: an element of the set has the
    hash of [self] and is [==] to it. *)
Definition in_sentinels (self : Version) : bool :=
  existsb (fun e => String.eqb (__hash__ e) (__hash__ self)
                    && __eq__ e (PyVersion self))
          [lowest; latest].

(** This method checks whether the version belongs to another version's
    series. *)
Definition is_in_series (self : Version) (series : object) : result bool :=
  series <- as_version series ;;
  if in_sentinels self then
    Ok (__eq__ series (PyVersion self))
  else
    Ok (list_eq component_eq (version series)
          (firstn (List.length (version series)) (version self))).

(** Enables to use the [in] expression: [ver in self]. *)
Definition __contains__ (self : Version) (ver : object) : bool :=
  match __init__ ver with
  | Raise _ => false
  | Ok v =>
      match is_in_series v (PyVersion self) with
      | Ok b => b
      | Raise _ => false
      end
  end.

(** Returns the series (first [n] items) of the version:
    [".".join(self.vstring.split(".")[:n])]. *)
Definition series (self : Version) (n : Z) : string :=
  join "." (slice_to n (split "." (vstring self))).

End Version.

(** ** [sorted]

    CPython's list sort on fewer than 64 items: the longest run at the head
    is found, turned round when it is strictly descending, and the remaining
    items are inserted one by one at the place a binary search gives.  Only
    [<] is used, and an exception raised by it leaves the sort. *)

Section Sorted.
Context {A : Type}.
Variable lt : A -> A -> result bool.

(** How many items of [l] continue the run that ends in [prev]. *)
Fixpoint extend_run (descending : bool) (prev : A) (l : list A) : result nat :=
  match l with
  | [] => Ok O
  | x :: l' =>
      less <- lt x prev ;;
      if Bool.eqb less descending
      then n <- extend_run descending x l' ;; Ok (S n)
      else Ok O
  end.

Definition count_run (l : list A) : result (nat * bool) :=
  match l with
  | [] => Ok (O, false)
  | [_] => Ok (1%nat, false)
  | x :: y :: l' =>
      descending <- lt y x ;;
      n <- extend_run descending y l' ;;
      Ok (S (S n), descending)
  end.

(** The place of [pivot] in the sorted list [a], between [l] and [r]. *)
Fixpoint bisect (fuel : nat) (pivot : A) (a : list A) (l r : nat) : result nat :=
  match fuel with
  | O => Ok l
  | S fuel' =>
      if (l <? r)%nat then
        let p := (l + (r - l) / 2)%nat in
        less <- lt pivot (nth p a pivot) ;;
        if less then bisect fuel' pivot a l p
        else bisect fuel' pivot a (S p) r
      else Ok l
  end.

Fixpoint binarysort (run rest : list A) : result (list A) :=
  match rest with
  | [] => Ok run
  | pivot :: rest' =>
      l <- bisect (List.length run) pivot run O (List.length run) ;;
      binarysort (firstn l run ++ pivot :: skipn l run)%list rest'
  end.

Definition list_sort (l : list A) : result (list A) :=
  if (List.length l <? 2)%nat then Ok l
  else
    c <- count_run l ;;
    let '(n, descending) := c in
    let run := firstn n l in
    binarysort (if descending then rev run else run) (skipn n l).

(** [sorted(l, reverse=True)]: the list is reversed, sorted, and reversed
    again. *)
Definition sorted_reverse (l : list A) : result (list A) :=
  s <- list_sort (rev l) ;; Ok (rev s).

(** [[x for x in l if keep(x)]] *)
Fixpoint filterM (keep : A -> result bool) (l : list A) : result (list A) :=
  match l with
  | [] => Ok []
  | x :: l' =>
      k <- keep x ;;
      r <- filterM keep l' ;;
      Ok (if k then x :: r else r)
  end.
End Sorted.

(** ** class VersionPick *)

Module VersionPick.

Section Pick.
(** The items of the version dictionary. *)
Context {Item : Type}.

(** A [dict] keyed by [Version] objects, in insertion order.  Two keys are
    the same entry when their hashes agree and they are [==]. *)
Definition dict : Type := list (Version * Item).

Definition same_key (stored key : Version) : bool :=
  String.eqb (Version.__hash__ stored) (Version.__hash__ key)
  && Version.__eq__ stored (PyVersion key).

Fixpoint dict_set (d : dict) (k : Version) (v : Item) : dict :=
  match d with
  | [] => [(k, v)]
  | (k', v') :: d' =>
      if same_key k' k then (k', v) :: d' else (k', v') :: dict_set d' k v
  end.

(** [d.get(k)]: [None] when there is no such key. *)
Fixpoint dict_get (d : dict) (k : Version) : option Item :=
  match d with
  | [] => None
  | (k', v) :: d' => if same_key k' k then Some v else dict_get d' k
  end.

(** The attribute [version_dict], as the sequence of its [items()]. *)
Record t : Type := { version_dict : list (object * Item) }.

Definition __init__ (version_dict : list (object * Item)) : result t :=
  match version_dict with
  | [] => Raise (ValueError (Msg "Passed an empty version pick dictionary."))
  | _ :: _ => Ok {| version_dict := version_dict |}
  end.

(** [{VERSION_CLASS(k): v for k, v in version_dict.items()}], continued
    from the dictionary [d] built so far. *)
Fixpoint convert_keys (items : list (object * Item)) (d : dict) : result dict :=
  match items with
  | [] => Ok d
  | (k, v) :: items' =>
      k' <- Version.__init__ k ;;
      convert_keys items' (dict_set d k' v)
  end.

(** Selects the appropriate value for given version. *)
Definition pick (self : t) (version : object) : result (option Item) :=
  (* convert keys to Versions *)
  v_dict <- convert_keys (version_dict self) [] ;;
  let versions := map fst v_dict in
  version <- Version.as_version version ;;
  matching <-
    filterM (fun v => Version.__le__ v (PyVersion version)) versions ;;
  sorted_matching_versions <-
    sorted_reverse (fun a b => Version.__lt__ a (PyVersion b)) matching ;;
  match sorted_matching_versions with
  | v :: _ => Ok (dict_get v_dict v)
  | [] => Raise (ValueError (MsgNotFound version versions))
  end.
End Pick.

Arguments t : clear implicits.
Arguments dict : clear implicits.

End VersionPick.

(** ** class Widgetable *)

Module Widgetable.

(** An object of the class, with the sequence number it was given. *)
Record t : Type := { _seq_id : Z }.

(** [__new__]: under the lock, the object takes the class counter
    [_seq_cnt] as its [_seq_id] and the counter moves on by one.  The
    counter is threaded through: the value before, the object and the value
    after. *)
Definition __new__ (_seq_cnt : Z) : t * Z :=
  ({| _seq_id := _seq_cnt |}, _seq_cnt + 1).

(** [n] objects created one after the other. *)
Fixpoint create (n : nat) (_seq_cnt : Z) : list t * Z :=
  match n with
  | O => ([], _seq_cnt)
  | S n' =>
      let (o, cnt) := __new__ _seq_cnt in
      let (os, cnt') := create n' cnt in
      (o :: os, cnt')
  end.

(** [child_items] of the base class. *)
Definition child_items {A : Type} (self : t) : list A := [].

End Widgetable.

(** ** The functions on text *)

(** [[a-z0-9 ]] *)
Definition is_plain_char (c : ascii) : bool :=
  Py.is_lower c || Py.is_digit c || Ascii.eqb c " ".

(** Makes the text lowercase and removes all characters that are not digits,
    alphas, or spaces:
    [re.sub(r"[^a-z0-9 ]", "", text.strip().lower().replace('_', ' '))]. *)
Definition _prenormalize_text (text : string) : string :=
  Py.filter_chars is_plain_char
    (Py.replace_char "_" " " (Py.lower (Py.strip text))).

(** [re.sub(r"\s+", delim, text)] where [in_run] says that the character
    before was white space, already replaced.  The delimiter stands for
    itself (it holds no backslash in either caller). *)
Fixpoint replace_spaces (delim : string) (in_run : bool) (text : string) : string :=
  match text with
  | EmptyString => ""
  | String c text' =>
      if Py.is_space c then
        if in_run then replace_spaces delim true text'
        else delim ++ replace_spaces delim true text'
      else String c (replace_spaces delim false text')
  end.

(** Contracts spaces into one character and replaces it with a custom
    character. *)
Definition _replace_spaces_with (text delim : string) : string :=
  replace_spaces delim false text.

(** Converts a string to a lowercase string containing only letters, digits
    and underscores. *)
Definition attributize_string (text : string) : string :=
  _replace_spaces_with (_prenormalize_text text) "_".

(** Works in accordance with the XPath's normalize-space() operator. *)
Definition normalize_space (text : string) : string :=
  _replace_spaces_with (Py.strip text) " ".

(** ** Shapes of strings

    The predicates below describe what the scanner can hand over as a block
    of suffixes; they are used to show that [normalized_suffix] never raises
    on a version that [parse] built. *)

(** Every character of [s] satisfies [p]. *)
Fixpoint all (p : ascii -> bool) (s : string) : bool :=
  match s with
  | EmptyString => true
  | String c s' => p c && all p s'
  end.

(** [s] is empty or starts with a character that fails [p]. *)
Definition stops (p : ascii -> bool) (s : string) : Prop :=
  match s with
  | EmptyString => True
  | String c _ => p c = false
  end.

Definition not_digit (c : ascii) : bool := negb (Py.is_digit c).
Definition not_dash (c : ascii) : bool := negb (Ascii.eqb c "-").

(** The texts [(?:\d+(?:\.\d+)?)?] can match. *)
Inductive number_text : string -> Prop :=
| number_absent : number_text ""
| number_int (d : string) :
    d <> "" -> all Py.is_digit d = true -> number_text d
| number_decimal (d d' : string) :
    d <> "" -> all Py.is_digit d = true ->
    d' <> "" -> all Py.is_digit d' = true ->
    number_text (d ++ "." ++ d').

(** One item of a suffix: a name of [SUFFIXES] and its number, if any. *)
Definition suffix_item (i : string) : Prop :=
  exists n num, i = n ++ num /\ In n Re.SUFFIXES /\ number_text num.

(** The items, each behind a dash. *)
Fixpoint dash_join (items : list string) : string :=
  match items with
  | [] => ""
  | i :: items' => "-" ++ i ++ dash_join items'
  end.

(** A token of the scanner that starts with a dash is a block of suffix
    items. *)
Definition token_ok (t : string) : Prop :=
  forall chopped, t = String "-" chopped ->
  exists items, items <> [] /\ Forall suffix_item items /\ t = dash_join items.

(** The lexicographic order on lists, in the words of the specification: a
    proper prefix comes first, and otherwise the first items that differ
    decide. *)
Inductive lexicographic {A : Type} (less : A -> A -> Prop) : list A -> list A -> Prop :=
| lex_prefix (y : A) (b : list A) : lexicographic less [] (y :: b)
| lex_head (x y : A) (a b : list A) : less x y -> lexicographic less (x :: a) (y :: b)
| lex_tail (x : A) (a b : list A) :
    lexicographic less a b -> lexicographic less (x :: a) (x :: b).


(** Unfolds [<] between two [Version] objects down to its chain of tests. *)
Ltac unfold_lt :=
  unfold Version.__lt__, Version.as_version; cbv beta iota.

(** Splits a hypothesis [x <- r ;; k = Ok y] on the result of [r]. *)
Ltac inv_bind H :=
  match type of H with
  | bind ?r _ = Ok _ =>
      let E := fresh "E" in
      destruct r eqn:E; cbn [bind] in H; [|discriminate H]
  end.

(** ** Shapes of texts, of orders and of versions *)

(** The string that [parse] keeps: the three names of the newest version
    become ['master']. *)
Definition kept_string (s : string) : string :=
  if existsb (String.eqb s) ["master"; "latest"; "upstream"] then "master" else s.

(** [[a-z0-9_]] *)
Definition is_attribute_char (c : ascii) : bool :=
  Py.is_lower c || Py.is_digit c || Ascii.eqb c "_".

(** The character [c] never comes twice in a row in [s]. *)
Fixpoint no_double (c : ascii) (s : string) : bool :=
  match s with
  | String a (String b _ as s') =>
      negb (Ascii.eqb a c && Ascii.eqb b c) && no_double c s'
  | _ => true
  end.

(** [s] does not start with the character [c]. *)
Definition not_first (c : ascii) (s : string) : bool :=
  match s with
  | String a _ => negb (Ascii.eqb a c)
  | EmptyString => true
  end.

(** [[^\s]|[ ]]: no white space but the blank. *)
Definition is_blank_or_visible (c : ascii) : bool :=
  negb (Py.is_space c) || Ascii.eqb c " ".


Section Orders.
Context {A : Type}.
Variable R : A -> A -> bool.

(** [a] is not above [b]. *)
Definition not_above (a b : A) : Prop := R b a = false.

(** The run that [count_run] finds. *)
Fixpoint chain (descending : bool) (prev : A) (l : list A) : Prop :=
  match l with
  | [] => True
  | x :: l' => R x prev = descending /\ chain descending x l'
  end.

End Orders.

Definition is_int (c : component) : bool :=
  match c with CInt _ => true | CStr _ => false end.

(** The numbers of the components (a string counts as 0; there is none in
    the versions considered). *)
Definition ints (v : Version) : list Z :=
  map (fun c => match c with CInt n => n | CStr _ => 0 end) (version v).

(** The lexicographic order on lists of integers, as a function. *)
Fixpoint ints_ltb (x y : list Z) : bool :=
  match x, y with
  | a :: x', b :: y' => if a =? b then ints_ltb x' y' else a <? b
  | [], _ :: _ => true
  | _, [] => false
  end.

(** 0 for the components of [lowest()], 2 for those of [latest()], 1 for
    all others. *)
Definition rank (v : Version) : Z :=
  if list_eq component_eq (version v) (version Version.lowest) then 0
  else if list_eq component_eq (version v) (version Version.latest) then 2
  else 1.

(** An ordinary version: no suffix, and components that are all numbers, or
    those of one of the two sentinels. *)
Definition ordinary (v : Version) : Prop :=
  suffix v = None /\
  (forallb is_int (version v) = true \/
   version v = version Version.lowest \/
   version v = version Version.latest).

(** The order of the ordinary versions: the oldest, then the numbered ones
    in the lexicographic order of their numbers, then the newest. *)
Definition ordinary_less (a b : Version) : bool :=
  if rank a =? rank b then (rank a =? 1) && ints_ltb (ints a) (ints b)
  else rank a <? rank b.

(** Facts on one character, by going through the 256 of them. *)
Ltac by_chars c :=
  destruct c as [[] [] [] [] [] [] [] []]; vm_compute in *; congruence.

(** * Properties *)

(** ** The host functions on examples *)

Example float_examples :
  Py.float "0" = Some 0 /\
  Py.float "1" = Some 0x3FF0000000000000 /\
  Py.float "2.5" = Some 0x4004000000000000 /\
  Py.float "0.1" = Some 0x3FB999999999999A /\
  Py.float "9007199254740993" = Some 0x4340000000000000 /\
  Py.float "x" = None.
Proof. repeat split. Qed.

Example findall_examples :
  Re.component_re_findall "1.0.0-beta1" = ["1"; "."; "0"; "."; "0"; "-beta1"] /\
  Re.component_re_findall "5.6 nightly-pre2-rc1.5" =
    ["5"; "."; "6"; "nightly"; "-pre2-rc1.5"] /\
  Re.component_re_findall "1.0-alpha-foo" = ["1"; "."; "0"; "alpha"; "foo"] /\
  Re.component_re_findall "1.0-beta1." = ["1"; "."; "0"; "beta"; "1"; "."] /\
  Re.component_re_findall "master" = ["master"].
Proof. repeat split. Qed.

Example parse_examples :
  Version.__init__ (PyStr " 5.6-pre2-rc1.5 ") =
    Ok {| vstring := "5.6-pre2-rc1.5";
          version := [CInt 5; CInt 6];
          suffix := Some ["pre2"; "rc1.5"] |} /\
  Version.normalized_suffix (Version.of_str "5.6-pre2-rc1.5") =
    Ok [(1, 0x4000000000000000); (4, 0x3FF8000000000000)] /\
  Version.__init__ (PyTuple [AInt 5; AInt 6; AStr "2a"]) =
    Ok {| vstring := "5.6.2a";
          version := [CInt 5; CInt 6; CInt 2; CStr "a"];
          suffix := None |} /\
  Version.__init__ (PyInt 0) = Raise TypeError.
Proof. repeat split. Qed.

Example sorted_examples :
  sorted_reverse (fun a b => Ok (a <? b)) [3; 1; 2; 5; 4; 4; 9; 0] =
    Ok [9; 5; 4; 4; 3; 2; 1; 0] /\
  list_sort (fun a b => Ok (a <? b)) [3; 2; 1; 5; 4; 4; 9; 0] =
    Ok [0; 1; 2; 3; 4; 4; 5; 9].
Proof. repeat split. Qed.

(** ** Equality of components and of suffix pairs *)

Lemma component_eq_spec (a b : component) : component_eq a b = true <-> a = b.
Proof.
  destruct a as [x|x], b as [y|y]; simpl; split; intro H;
    try discriminate; try (inversion H; subst).
  - apply Z.eqb_eq in H. now subst.
  - apply Z.eqb_refl.
  - apply String.eqb_eq in H. now subst.
  - apply String.eqb_refl.
Qed.

Lemma pair_eq_spec (a b : suffix_pair) : pair_eq a b = true <-> a = b.
Proof.
  destruct a as [r x], b as [r' x']; unfold pair_eq; simpl.
  rewrite andb_true_iff, !Z.eqb_eq. split.
  - intros [-> ->]. reflexivity.
  - intros H. inversion H. split; reflexivity.
Qed.

Section ListLaws.
Context {A : Type}.
Variable eqb : A -> A -> bool.
Variable ltb : A -> A -> result bool.
Hypothesis eqb_spec : forall x y, eqb x y = true <-> x = y.

Lemma list_eq_spec (a b : list A) : list_eq eqb a b = true <-> a = b.
Proof.
  revert b. induction a as [|x a IH]; intros [|y b]; simpl;
    try (split; [discriminate | intro H; inversion H]); try tauto.
  rewrite andb_true_iff, eqb_spec, IH. split.
  - intros [-> ->]. reflexivity.
  - intro H. inversion H. split; reflexivity.
Qed.

Lemma list_eq_refl (a : list A) : list_eq eqb a a = true.
Proof. now apply list_eq_spec. Qed.

Lemma list_eq_sym (a b : list A) : list_eq eqb a b = list_eq eqb b a.
Proof.
  destruct (list_eq eqb a b) eqn:E.
  - apply list_eq_spec in E. subst. symmetry. apply list_eq_refl.
  - destruct (list_eq eqb b a) eqn:E'; [|reflexivity].
    apply list_eq_spec in E'. subst. rewrite list_eq_refl in E. discriminate.
Qed.

End ListLaws.

Lemma versions_eq_spec (a b : list component) :
  list_eq component_eq a b = true <-> a = b.
Proof. apply list_eq_spec, component_eq_spec. Qed.

Lemma suffixes_eq_spec (a b : list suffix_pair) :
  list_eq pair_eq a b = true <-> a = b.
Proof. apply list_eq_spec, pair_eq_spec. Qed.

(** [==] between two [Version] objects does not depend on the side. *)
Lemma eq_sym (a b : Version) :
  Version.__eq__ a (PyVersion b) = Version.__eq__ b (PyVersion a).
Proof.
  unfold Version.__eq__; simpl.
  rewrite (list_eq_sym component_eq component_eq_spec (version a) (version b)).
  destruct (list_eq component_eq (version b) (version a)); [|reflexivity].
  destruct (Version.normalized_suffix a) as [na|], (Version.normalized_suffix b) as [nb|];
    try reflexivity.
  apply (list_eq_sym pair_eq pair_eq_spec).
Qed.

(** What [==] between two [Version] objects says. *)
Lemma eq_true_iff (a b : Version) :
  Version.__eq__ a (PyVersion b) = true <->
  version a = version b /\
  exists n, Version.normalized_suffix a = Ok n /\ Version.normalized_suffix b = Ok n.
Proof.
  unfold Version.__eq__; simpl. split.
  - destruct (list_eq component_eq (version a) (version b)) eqn:E; [|discriminate].
    apply versions_eq_spec in E.
    destruct (Version.normalized_suffix a) as [na|]; [|discriminate].
    destruct (Version.normalized_suffix b) as [nb|]; [|discriminate].
    intro H. apply suffixes_eq_spec in H. subst nb. split; [assumption|].
    exists na. split; reflexivity.
  - intros [Hv [n [Ha Hb]]]. rewrite Hv, Ha, Hb.
    rewrite (list_eq_refl component_eq component_eq_spec).
    apply (list_eq_refl pair_eq pair_eq_spec).
Qed.

(** ** The sentinels *)

Lemma latest_value :
  Version.latest = {| vstring := "master"; version := [CStr "master"]; suffix := None |}.
Proof. reflexivity. Qed.

Lemma lowest_value :
  Version.lowest = {| vstring := "lowest"; version := [CStr "lowest"]; suffix := None |}.
Proof. reflexivity. Qed.



(** A value [==] to [latest()] is less than nothing. *)
Lemma latest_not_less (v x : Version) :
  Version.__eq__ v (PyVersion Version.latest) = true ->
  Version.__lt__ v (PyVersion x) = Ok false.
Proof.
  intro Hv. unfold_lt. rewrite Hv. simpl.
  now destruct (Version.__eq__ v (PyVersion x)).
Qed.




(** ** Operands that are no version *)

(** C7: [==] with an operand that cannot be turned into a [Version] answers
    [False] and raises nothing, while [<] raises the error
    [Cannot compare Version to <type>] for it and returns no boolean. *)
Theorem eq_swallows_lt_raises (self : Version) (other : object) (e : exn) :
  Version.as_version other = Raise e ->
  Version.__eq__ self other = false /\
  Version.__lt__ self other =
    Raise (ValueError (Msg ("Cannot compare Version to " ++ Version.type_name other))).
Proof.
  intro H. unfold Version.__eq__, Version.__lt__. rewrite H. split; reflexivity.
Qed.

(** The operands of the model that [Version(...)] refuses are [None] and the
    integer [0]. *)
Lemma uncoercible_operands (other : object) :
  (exists e, Version.as_version other = Raise e) <->
  other = PyNone \/ other = PyInt 0.
Proof.
  split.
  - intros [e H]. destruct other; simpl in H; try discriminate.
    + now left.
    + right. unfold Version.__init__, Version.parse, Version.coerce in H.
      destruct (n =? 0) eqn:E; [|discriminate].
      apply Z.eqb_eq in E. now subst.
  - intros [-> | ->]; eexists; reflexivity.
Qed.

Lemma eq_swallows_lt_raises_witness :
  Version.__eq__ (Version.of_str "1.0") PyNone = false /\
  Version.__lt__ (Version.of_str "1.0") PyNone =
    Raise (ValueError (Msg "Cannot compare Version to NoneType")).
Proof.
  exact (eq_swallows_lt_raises (Version.of_str "1.0") PyNone
           (ValueError (Msg "Version string cannot be None")) eq_refl).
Defined.

(** ** Components that differ *)

(** C1: for two versions that are not equal, none of them a sentinel, whose
    components differ, the comparison of the components alone should decide
    [<].  The code decides on the components only when [self.version <
    other.version]; when the components of [self] are the greater ones it goes
    on to the suffix rules.  At [self = Version('2.0-beta1')] and [other =
    Version('1.0')] the components [[2, 0]] are not less than [[1, 0]], and
    [self < other] is [True] because only [self] has a suffix. *)
Theorem lt_greater_components_fall_to_suffix :
  let self := Version.of_str "2.0-beta1" in
  let other := Version.of_str "1.0" in
  version self = [CInt 2; CInt 0] /\
  version other = [CInt 1; CInt 0] /\
  Version.__eq__ self (PyVersion other) = false /\
  Version.__eq__ self (PyVersion Version.latest) = false /\
  Version.__eq__ self (PyVersion Version.lowest) = false /\
  Version.__eq__ other (PyVersion Version.latest) = false /\
  Version.__eq__ other (PyVersion Version.lowest) = false /\
  list_lt component_eq component_lt (version self) (version other) = Ok false /\
  list_lt component_eq component_lt (version other) (version self) = Ok true /\
  Version.__lt__ self (PyVersion other) = Ok true.
Proof. repeat split. Qed.

(** C2: the comparison operators should form a total order.  With
    [a = Version('2.0-beta1')], [b = Version('1.0')] and
    [c = Version('1.5-beta1')] the code answers [True] to both [a < b] and
    [b < a] although [a != b], and [True] to [a < b] and [b < c] but [False]
    to [a < c]. *)
Theorem lt_is_not_an_order :
  let a := Version.of_str "2.0-beta1" in
  let b := Version.of_str "1.0" in
  let c := Version.of_str "1.5-beta1" in
  Version.__eq__ a (PyVersion b) = false /\
  Version.__lt__ a (PyVersion b) = Ok true /\
  Version.__lt__ b (PyVersion a) = Ok true /\
  Version.__lt__ b (PyVersion c) = Ok true /\
  Version.__lt__ a (PyVersion c) = Ok false /\
  Version.__eq__ a (PyVersion c) = false.
Proof. repeat split. Qed.

(** ** Picking *)

(** C3: [pick] should return the item of the greatest key that is [<=] the
    version asked for, and never the item of a key above it.  For the
    dictionary [{'1.0': 'A', '2.0-beta1': 'B'}] and the version ['1.5'] the code
    returns ['B']: the key ['2.0-beta1'] passes the test [v <= version], though
    [version < v] holds as well.  Asked for ['3.0'], the same two entries give
    ['B'] or ['A'] according to the order they were inserted in, although
    ['1.0'] is less than ['2.0-beta1']. *)
Theorem pick_returns_a_key_above_the_version :
  let d1 := [(PyStr "1.0", "A"); (PyStr "2.0-beta1", "B")] in
  let d2 := [(PyStr "2.0-beta1", "B"); (PyStr "1.0", "A")] in
  VersionPick.pick {| VersionPick.version_dict := d1 |} (PyStr "1.5") = Ok (Some "B") /\
  Version.__le__ (Version.of_str "2.0-beta1") (PyStr "1.5") = Ok true /\
  Version.__lt__ (Version.of_str "1.5") (PyStr "2.0-beta1") = Ok true /\
  Version.__le__ (Version.of_str "1.0") (PyStr "1.5") = Ok true /\
  VersionPick.pick {| VersionPick.version_dict := d1 |} (PyStr "3.0") = Ok (Some "B") /\
  VersionPick.pick {| VersionPick.version_dict := d2 |} (PyStr "3.0") = Ok (Some "A") /\
  Version.__lt__ (Version.of_str "1.0") (PyStr "2.0-beta1") = Ok true.
Proof. repeat split. Qed.

(** The examples of the documentation, where every key is a plain version. *)
Example pick_plain_versions :
  let self := {| VersionPick.version_dict := [(PyStr "1.0.0", "A"); (PyStr "2.5.0", "B")] |} in
  VersionPick.pick self (PyStr "1.2.0") = Ok (Some "A") /\
  VersionPick.pick self (PyStr "3.0.0") = Ok (Some "B") /\
  VersionPick.pick self (PyStr "0.5.0") =
    Raise (ValueError (MsgNotFound (Version.of_str "0.5.0")
                         [Version.of_str "1.0.0"; Version.of_str "2.5.0"])) /\
  VersionPick.pick {| VersionPick.version_dict := [(PyStr "1.0.0", "X")] |} (PyStr "1.0.0")
    = Ok (Some "X").
Proof. repeat split. Qed.

(** ** Construction *)

(** C8, as the code has it: the empty string is accepted.  It is a false
    value, so it is not even stripped, and it parses to no component. *)
Lemma empty_string_is_accepted :
  Version.__init__ (PyStr "") =
    Ok {| vstring := ""; version := []; suffix := None |}.
Proof. reflexivity. Qed.

(** C8 (amended): constructing a [Version] from [None] fails with
    [ValueError('Version string cannot be None')]; constructing it from the
    empty string does not fail and gives a version with an empty string, no
    component and no suffix; constructing a [VersionPick] from an empty
    dictionary fails with [ValueError('Passed an empty version pick
    dictionary.')], and from any other dictionary it succeeds. *)
Theorem construction_errors (Item : Type) :
  Version.__init__ PyNone = Raise (ValueError (Msg "Version string cannot be None")) /\
  (exists v, Version.__init__ (PyStr "") = Ok v /\
     vstring v = "" /\ version v = [] /\ suffix v = None) /\
  VersionPick.__init__ ([] : list (object * Item)) =
    Raise (ValueError (Msg "Passed an empty version pick dictionary.")) /\
  (forall (i : object * Item) (d : list (object * Item)),
     VersionPick.__init__ (i :: d) = Ok {| VersionPick.version_dict := i :: d |}).
Proof.
  repeat split.
  eexists. repeat split.
Qed.

(** ** The names of the newest version *)

(** C9, as the code has it: ['master'] is a run of lower-case letters, so it
    is a component; the value is [==] to [latest()], and [<] treats it as the
    newest version: [Version('zzz') < Version('master')] although the
    components [['zzz']] are not less than [['master']]. *)
Lemma master_has_a_component_and_is_latest :
  version (Version.of_str "master") = [CStr "master"] /\
  Version.__eq__ (Version.of_str "master") (PyVersion Version.latest) = true /\
  list_lt component_eq component_lt
    (version (Version.of_str "zzz")) (version (Version.of_str "master")) = Ok false /\
  Version.__lt__ (Version.of_str "zzz") (PyStr "master") = Ok true.
Proof. repeat split. Qed.

(** C9 (amended): for every input string among ['master'], ['latest'] and
    ['upstream'], construction turns the string into ['master'], which is
    parsed like any other string and yields the single component ['master']
    and no suffix.  The value is the one [latest()] holds (itself built from
    ['latest']) and is [==] to it, and since the sentinels are recognised by
    [==], it is ordered as the newest version: it is less than nothing. *)
Theorem newest_names_are_latest (s : string) :
  In s ["master"; "latest"; "upstream"] ->
  let v := Version.of_str s in
  Version.__init__ (PyStr s) = Ok v /\
  vstring v = "master" /\
  version v = [CStr "master"] /\
  suffix v = None /\
  v = Version.latest /\
  Version.__eq__ v (PyVersion Version.latest) = true /\
  forall x : Version, Version.__lt__ v (PyVersion x) = Ok false.
Proof.
  intros Hs v.
  assert (Hv : v = Version.latest).
  { subst v. simpl in Hs. destruct Hs as [<- | [<- | [<- | []]]]; reflexivity. }
  assert (Hinit : Version.__init__ (PyStr s) = Ok v) by reflexivity.
  rewrite Hv in *. repeat split; try assumption.
  intro x. apply latest_not_less. reflexivity.
Qed.

Lemma newest_names_are_latest_witness :
  let v := Version.of_str "upstream" in
  vstring v = "master" /\ version v = [CStr "master"] /\ suffix v = None /\
  Version.__lt__ v (PyStr "zzz") = Ok false.
Proof.
  assert (Hin : In "upstream" ["master"; "latest"; "upstream"]) by (simpl; tauto).
  destruct (newest_names_are_latest "upstream" Hin) as (_ & Hs & Hc & Hx & _ & _ & Hlt).
  split; [exact Hs | split; [exact Hc | split; [exact Hx |]]].
  exact (Hlt (Version.of_str "zzz")).
Defined.

(** ** Hash and equality *)




(** ** The suffix of a parsed version *)

Section Runs.
Variable p : ascii -> bool.

Lemma all_app (a b : string) : all p (a ++ b) = all p a && all p b.
Proof.
  induction a as [|c a IH]; simpl; [reflexivity|].
  now rewrite IH, andb_assoc.
Qed.

Lemma all_take_while (s : string) : all p (Py.take_while p s) = true.
Proof.
  induction s as [|c s IH]; simpl; [reflexivity|].
  destruct (p c) eqn:E; simpl; [|reflexivity].
  now rewrite E, IH.
Qed.

Lemma stops_drop_while (s : string) : stops p (Py.drop_while p s).
Proof.
  induction s as [|c s IH]; simpl; [exact I|].
  destruct (p c) eqn:E; [assumption|]. simpl. exact E.
Qed.

Lemma take_while_app (a b : string) :
  all p a = true -> stops p b -> Py.take_while p (a ++ b) = a.
Proof.
  induction a as [|c a IH]; simpl; intros Ha Hb.
  - destruct b as [|c b]; simpl; [reflexivity|]. simpl in Hb. now rewrite Hb.
  - apply andb_true_iff in Ha as [Hc Ha]. rewrite Hc. f_equal. now apply IH.
Qed.

Lemma drop_while_app (a b : string) :
  all p a = true -> stops p b -> Py.drop_while p (a ++ b) = b.
Proof.
  induction a as [|c a IH]; simpl; intros Ha Hb.
  - destruct b as [|c b]; simpl; [reflexivity|]. simpl in Hb. now rewrite Hb.
  - apply andb_true_iff in Ha as [Hc Ha]. rewrite Hc. now apply IH.
Qed.

Lemma take_while_all (s : string) : all p s = true -> Py.take_while p s = s.
Proof.
  induction s as [|c s IH]; simpl; [reflexivity|].
  intro H. apply andb_true_iff in H as [Hc Hs]. rewrite Hc. f_equal. now apply IH.
Qed.

Lemma drop_while_all (s : string) : all p s = true -> Py.drop_while p s = "".
Proof.
  induction s as [|c s IH]; simpl; [reflexivity|].
  intro H. apply andb_true_iff in H as [Hc Hs]. rewrite Hc. now apply IH.
Qed.
End Runs.

Lemma append_empty (s : string) : s ++ "" = s.
Proof. induction s as [|c s IH]; simpl; [reflexivity | now rewrite IH]. Qed.

Lemma all_weaken (p q : ascii -> bool) (s : string) :
  (forall c, p c = true -> q c = true) -> all p s = true -> all q s = true.
Proof.
  intro H. induction s as [|c s IH]; simpl; [reflexivity|].
  rewrite !andb_true_iff. intros [Hc Hs]. split; [now apply H | now apply IH].
Qed.

Lemma digit_is_no_dash (c : ascii) : Py.is_digit c = true -> not_dash c = true.
Proof.
  unfold not_dash. destruct (Ascii.eqb_spec c "-") as [-> |]; [discriminate | reflexivity].
Qed.

Lemma digit_is_digit (c : ascii) : Py.is_digit c = true -> not_digit c = false.
Proof. unfold not_digit. now intros ->. Qed.

(** A non-empty run of digits starts with a digit. *)
Lemma digits_stop (d rest : string) :
  d <> "" -> all Py.is_digit d = true -> stops not_digit (d ++ rest).
Proof.
  destruct d as [|c d]; [congruence|]. simpl. intros _ H.
  apply andb_true_iff in H as [H _]. now apply digit_is_digit.
Qed.

(** [int] accepts every non-empty run of digits. *)
Lemma int_digits_total (d : string) (acc : Z) :
  all Py.is_digit d = true -> exists n, Py.int_digits acc d = Some n.
Proof.
  revert acc. induction d as [|c d IH]; simpl; intros acc H.
  - now exists acc.
  - apply andb_true_iff in H as [Hc Hd]. rewrite Hc. now apply IH.
Qed.

Lemma int_total (d : string) :
  d <> "" -> all Py.is_digit d = true -> exists n, Py.int d = Some n.
Proof.
  intros Hne H. unfold Py.int. destruct d; [congruence|]. simpl Py.is_empty.
  now apply int_digits_total.
Qed.

(** *** The number of a suffix item *)

Lemma match_number_text (s : string) : number_text (fst (Re.match_number s)).
Proof.
  unfold Re.match_number.
  destruct (Py.take_while Py.is_digit s) as [|c d] eqn:Ed; simpl.
  - constructor.
  - assert (Hd : all Py.is_digit (String c d) = true)
      by (rewrite <- Ed; apply all_take_while).
    destruct (Py.drop_while Py.is_digit s) as [|c' r'] eqn:Er; simpl.
    + now constructor.
    + destruct (Ascii.eqb_spec c' "."%char) as [-> | Hc'].
      * destruct (Py.take_while Py.is_digit r') as [|c2 d2] eqn:Ed2; simpl.
        -- now constructor.
        -- apply (number_decimal (String c d) (String c2 d2));
             try assumption; try discriminate.
           rewrite <- Ed2. apply all_take_while.
      * assert (E : forall T (x y : T),
                   match c' with "."%char => x | _ => y end = y).
        { intros T x y.
          destruct c' as [[] [] [] [] [] [] [] []]; try reflexivity.
          now contradiction Hc'. }
        rewrite E. simpl. now constructor.
Qed.

(** On the text of a number the match is the whole text. *)
Lemma match_number_whole (num : string) :
  number_text num -> Re.match_number num = (num, "").
Proof.
  intros [|d Hne Hd|d d' Hne Hd Hne' Hd']; [reflexivity| |]; unfold Re.match_number.
  - rewrite take_while_all, drop_while_all by assumption.
    destruct d; [congruence | reflexivity].
  - assert (Hs : stops Py.is_digit ("." ++ d')) by reflexivity.
    rewrite take_while_app, drop_while_app by assumption.
    destruct d as [|c d]; [congruence|]. simpl Py.is_empty. cbv iota.
    change ("." ++ d') with (String "." d'). cbv beta iota.
    rewrite take_while_all, drop_while_all by assumption.
    destruct d' as [|c' d'']; [congruence | reflexivity].
Qed.

Lemma float_total (num : string) :
  number_text num -> num <> "" -> exists f, Py.float num = Some f.
Proof.
  intros [|d Hne Hd|d d' Hne Hd Hne' Hd'] Hnum; [congruence| |]; unfold Py.float.
  - rewrite take_while_all, drop_while_all by assumption.
    destruct (int_total d Hne Hd) as [n ->]. eauto.
  - assert (Hs : stops Py.is_digit ("." ++ d')) by reflexivity.
    rewrite take_while_app, drop_while_app by assumption.
    change ("." ++ d') with (String "." d').
    destruct (int_total d Hne Hd) as [n ->].
    destruct (int_total d' Hne' Hd') as [m ->]. eauto.
Qed.

(** *** One suffix item *)

Lemma suffix_name_facts (n : string) :
  In n Re.SUFFIXES ->
  n <> "" /\ all not_digit n = true /\ all not_dash n = true /\
  exists i, Version.SUFFIXES_index n = Ok i.
Proof.
  simpl. intros [<- | [<- | [<- | [<- | [<- | []]]]]];
    (split; [discriminate | split; [reflexivity | split; [reflexivity |]]]);
    eexists; reflexivity.
Qed.

Lemma number_text_stops (num : string) : number_text num -> stops not_digit num.
Proof.
  intros [|d Hne Hd|d d' Hne Hd _ _]; [exact I | |].
  - rewrite <- (append_empty d). now apply digits_stop.
  - now apply digits_stop.
Qed.

Lemma number_text_no_dash (num : string) : number_text num -> all not_dash num = true.
Proof.
  intros [|d _ Hd|d d' _ Hd _ Hd']; [reflexivity| |].
  - exact (all_weaken _ _ d digit_is_no_dash Hd).
  - rewrite all_app. apply andb_true_iff. split.
    + exact (all_weaken _ _ d digit_is_no_dash Hd).
    + simpl. exact (all_weaken _ _ d' digit_is_no_dash Hd').
Qed.

Lemma suffix_item_no_dash (i : string) : suffix_item i -> all not_dash i = true.
Proof.
  intros (n & num & -> & Hn & Hnum). rewrite all_app.
  apply andb_true_iff. split.
  - now apply suffix_name_facts.
  - now apply number_text_no_dash.
Qed.

(** The pattern of an item matches a name with its number, and gives them
    back as its two groups. *)
Lemma suffix_item_re_match_item (n num : string) :
  In n Re.SUFFIXES -> number_text num ->
  Re.suffix_item_re_match (n ++ num) =
    Some (n, if Py.is_empty num then None else Some num).
Proof.
  intros Hn Hnum. destruct (suffix_name_facts n Hn) as (Hne & Hnd & _ & _).
  unfold Re.suffix_item_re_match. cbv zeta.
  change (fun c : ascii => negb (Py.is_digit c)) with not_digit.
  rewrite take_while_app, drop_while_app
    by (assumption || now apply number_text_stops).
  destruct n as [|c n]; [congruence|]. simpl Py.is_empty. cbv iota.
  destruct num as [|c' num']; [reflexivity|]. simpl Py.is_empty. cbv iota.
  now rewrite match_number_whole.
Qed.

Lemma normalize_item_ok (i : string) :
  suffix_item i -> exists pr, Version.normalize_item i = Ok pr.
Proof.
  intros (n & num & -> & Hn & Hnum). unfold Version.normalize_item.
  rewrite suffix_item_re_match_item by assumption.
  destruct (suffix_name_facts n Hn) as (_ & _ & _ & idx & Hidx).
  destruct num as [|c num'] eqn:E.
  - simpl. rewrite Hidx. simpl. eauto.
  - rewrite <- E in *. assert (Hne : num <> "") by (rewrite E; discriminate).
    destruct (float_total num Hnum Hne) as [f Hf].
    replace (Py.is_empty num) with false by now rewrite E.
    replace (String.length num =? 0)%nat with false by now rewrite E.
    rewrite Hf. simpl. rewrite Hidx. simpl. eauto.
Qed.

Lemma mapM_ok {A B : Type} (f : A -> result B) (l : list A) :
  Forall (fun x => exists y, f x = Ok y) l ->
  exists ys, mapM f l = Ok ys /\ List.length ys = List.length l.
Proof.
  induction 1 as [|x l [y Hy] _ [ys [Hys Hlen]]]; simpl.
  - now exists [].
  - rewrite Hy. simpl. rewrite Hys. simpl. exists (y :: ys). simpl. auto.
Qed.

(** [normalized_suffix] succeeds on suffix items, one pair for each. *)
Lemma normalized_suffix_ok (v : Version) (items : list string) :
  suffix v = Some items -> Forall suffix_item items ->
  exists ns, Version.normalized_suffix v = Ok ns /\
             List.length ns = List.length items.
Proof.
  intros Hs Hitems. unfold Version.normalized_suffix. rewrite Hs.
  apply mapM_ok. eapply Forall_impl; [|exact Hitems].
  intros i Hi. now apply normalize_item_ok.
Qed.

(** *** The block of suffixes *)

Lemma append_assoc (a b c : string) : (a ++ b) ++ c = a ++ b ++ c.
Proof. induction a as [|x a IH]; simpl; [reflexivity | now rewrite IH]. Qed.

(** A branch on the character [c0] takes the default when the character is
    another one. *)
Lemma match_other_char {T : Type} (c0 c : ascii) (f : ascii -> T) :
  c <> c0 -> (if Ascii.eqb c c0 then f c0 else f c) = f c.
Proof. intro H. destruct (Ascii.eqb_spec c c0); [contradiction | reflexivity]. Qed.

Lemma match_name_in (names : list string) (s n r : string) :
  Re.match_name names s = Some (n, r) -> In n names.
Proof.
  induction names as [|m names IH]; simpl; [discriminate|].
  destruct (Py.strip_prefix m s).
  - intro H. inversion H. now left.
  - intro H. right. now apply IH.
Qed.

Lemma match_group_item (s g r : string) :
  Re.match_group s = Some (g, r) ->
  exists i, suffix_item i /\ g = "-" ++ i.
Proof.
  unfold Re.match_group. destruct s as [|c s']; [discriminate|].
  destruct (Ascii.eqb_spec c "-"%char) as [-> | Hc].
  - destruct (Re.match_name Re.SUFFIXES s') as [[n r0]|] eqn:En; [|discriminate].
    pose proof (match_number_text r0) as Hnum.
    destruct (Re.match_number r0) as [num r'] eqn:Em. simpl in Hnum.
    intro H. inversion H. subst g r.
    exists (n ++ num). split; [|reflexivity].
    exists n, num. split; [reflexivity|]. split; [|assumption].
    now apply match_name_in in En.
  - destruct c as [[] [] [] [] [] [] [] []]; try discriminate.
    now contradiction Hc.
Qed.

Lemma match_block_items (fuel : nat) (s b r : string) :
  Re.match_block fuel s = Some (b, r) ->
  exists items, items <> [] /\ Forall suffix_item items /\ b = dash_join items.
Proof.
  revert s b r. induction fuel as [|fuel IH]; simpl; intros s b r; [discriminate|].
  destruct (Re.match_group s) as [[g r0]|] eqn:Eg; [|discriminate].
  destruct (match_group_item _ _ _ Eg) as (i & Hi & ->).
  destruct (Re.at_dollar r0).
  - intro H. inversion H. subst b r. exists [i].
    split; [discriminate | split; [now constructor |]].
    simpl. now rewrite append_empty.
  - destruct (Re.match_block fuel r0) as [[b' r']|] eqn:Eb; [|discriminate].
    intro H. inversion H. subst b r.
    destruct (IH _ _ _ Eb) as (items & Hne & Hitems & ->).
    exists (i :: items). split; [discriminate | split; [now constructor |]].
    reflexivity.
Qed.

(** *** Splitting the block on its dashes *)

Lemma split_no_dash (i : string) :
  all not_dash i = true -> Py.split "-" i = [i].
Proof.
  induction i as [|c i IH]; simpl; [reflexivity|].
  intro H. apply andb_true_iff in H as [Hc Hi].
  unfold not_dash in Hc. apply negb_true_iff in Hc. rewrite Hc.
  now rewrite (IH Hi).
Qed.

Lemma split_app_dash (i rest : string) :
  all not_dash i = true ->
  Py.split "-" (i ++ String "-" rest) = i :: Py.split "-" rest.
Proof.
  induction i as [|c i IH]; simpl; [reflexivity|].
  intro H. apply andb_true_iff in H as [Hc Hi].
  unfold not_dash in Hc. apply negb_true_iff in Hc. rewrite Hc.
  now rewrite (IH Hi).
Qed.

Lemma split_dash_join (items : list string) :
  items <> [] -> Forall suffix_item items ->
  exists chopped,
    dash_join items = String "-" chopped /\ Py.split "-" chopped = items.
Proof.
  induction items as [|i items IH]; [congruence|].
  intros _ H. inversion H as [|? ? Hi Hitems]; subst.
  apply suffix_item_no_dash in Hi.
  exists (i ++ dash_join items). split; [reflexivity|].
  destruct items as [|j items].
  - simpl. rewrite append_empty. now apply split_no_dash.
  - destruct (IH ltac:(discriminate) Hitems) as (chopped & E & Hsplit).
    rewrite E, split_app_dash by assumption. now rewrite Hsplit.
Qed.

(** *** The tokens of the scanner *)

Lemma findall_tokens (fuel : nat) (s : string) :
  Forall token_ok (Re.findall_from fuel s).
Proof.
  revert s. induction fuel as [|fuel IH]; intro s; [constructor|].
  cbn [Re.findall_from].
  destruct (Py.drop_while Py.is_space s) as [|c t'] eqn:Et; [constructor|].
  destruct (Py.is_digit c) eqn:Ed; [|destruct (Py.is_lower c) eqn:El;
    [|destruct (Ascii.eqb c ".") eqn:Edot]].
  - constructor; [|apply IH]. cbn [Py.take_while]. rewrite Ed.
    intros chopped H. inversion H. subst c. discriminate.
  - constructor; [|apply IH]. cbn [Py.take_while]. rewrite El.
    intros chopped H. inversion H. subst c. discriminate.
  - constructor; [|apply IH]. intros chopped H. discriminate.
  - destruct (Re.match_block (String.length (String c t')) (String c t'))
      as [[b r]|] eqn:Eb; [|apply IH].
    constructor; [|apply IH].
    intros chopped _. eapply match_block_items. exact Eb.
Qed.

(** Whatever the string, the suffix that [parse] finds is a non-empty list
    of suffix items. *)
Lemma parse_text_suffix (s : string) (items : list string) :
  suffix (Version.parse_text s) = Some items ->
  items <> [] /\ Forall suffix_item items.
Proof.
  unfold Version.parse_text. cbv zeta.
  set (text := if existsb _ _ then _ else _).
  set (components := filter Version.is_component _).
  assert (Hc : Forall token_ok components).
  { apply Forall_forall. intros t Ht. apply filter_In in Ht as [Ht _].
    revert t Ht. apply Forall_forall. apply findall_tokens. }
  unfold Version.chop_suffix, Py.last_item.
  destruct (rev components) as [|t rest] eqn:Er; simpl; [discriminate|].
  assert (Ht : token_ok t).
  { eapply Forall_forall; [exact Hc|]. apply in_rev. rewrite Er. now left. }
  destruct t as [|c chopped]; simpl; [discriminate|].
  destruct (Ascii.eqb_spec c "-"%char) as [-> | Hne].
  - simpl. intro H. inversion H. subst items. clear H.
    destruct (Ht chopped eq_refl) as (items & Hitems & Hall & E).
    destruct (split_dash_join items Hitems Hall) as (chopped' & E' & Hsplit).
    rewrite E' in E. inversion E. subst chopped'. rewrite Hsplit.
    now split.
  - destruct c as [[] [] [] [] [] [] [] []]; try discriminate.
    now contradiction Hne.
Qed.

(** [normalized_suffix] never raises on a version that [parse] built; it is
    empty exactly when there is no suffix. *)
Lemma parse_text_normalized (s : string) :
  exists ns, Version.normalized_suffix (Version.parse_text s) = Ok ns /\
             (ns = [] <-> suffix (Version.parse_text s) = None).
Proof.
  destruct (suffix (Version.parse_text s)) as [items|] eqn:E.
  - destruct (parse_text_suffix s items E) as [Hne Hall].
    destruct (normalized_suffix_ok _ items E Hall) as (ns & Hns & Hlen).
    exists ns. split; [assumption|]. split; [|discriminate].
    intros ->. destruct items; [congruence | discriminate].
  - exists []. unfold Version.normalized_suffix. rewrite E. tauto.
Qed.

(** ** Construction from a string *)


Lemma vstring_parse_text (s : string) :
  vstring (Version.parse_text s) =
    if existsb (String.eqb s) ["master"; "latest"; "upstream"] then "master" else s.
Proof.
  unfold Version.parse_text. cbv zeta.
  now destruct (Version.chop_suffix _) as [sfx comps].
Qed.

(** A version that [parse] built is [==] to itself. *)
Lemma parse_text_eq_refl (s : string) :
  Version.__eq__ (Version.parse_text s) (PyVersion (Version.parse_text s)) = true.
Proof.
  apply eq_true_iff. split; [reflexivity|].
  destruct (parse_text_normalized s) as (ns & Hns & _). now exists ns.
Qed.

Lemma of_str_strip (s : string) : Version.of_str s = Version.parse_text (Py.strip s).
Proof. unfold Version.of_str. now destruct s. Qed.



(** ** Suffixes on equal components *)









(** ** The scanner has fuel enough

    The two functions that take fuel are given the length of the string.
    Every step consumes at least one character, so more fuel changes
    nothing: the fuel never runs out before the string does. *)

Lemma drop_while_length (p : ascii -> bool) (s : string) :
  (String.length (Py.drop_while p s) <= String.length s)%nat.
Proof.
  induction s as [|c s IH]; simpl; [lia|]. destruct (p c); simpl; lia.
Qed.

Lemma strip_prefix_length (n s r : string) :
  Py.strip_prefix n s = Some r -> (String.length r <= String.length s)%nat.
Proof.
  revert s. induction n as [|a n IH]; intros [|b s]; simpl; try discriminate.
  - intro H. inversion H. simpl. lia.
  - intro H. inversion H. simpl. lia.
  - destruct (Ascii.eqb a b); [|discriminate]. intro H. apply IH in H. lia.
Qed.

Lemma match_name_length (names : list string) (s n r : string) :
  Re.match_name names s = Some (n, r) -> (String.length r <= String.length s)%nat.
Proof.
  induction names as [|m names IH]; simpl; [discriminate|].
  destruct (Py.strip_prefix m s) as [r0|] eqn:E.
  - intro H. inversion H. subst. now apply strip_prefix_length in E.
  - exact IH.
Qed.

Lemma match_number_length (s : string) :
  (String.length (snd (Re.match_number s)) <= String.length s)%nat.
Proof.
  unfold Re.match_number.
  pose proof (drop_while_length Py.is_digit s) as H.
  destruct (Py.is_empty (Py.take_while Py.is_digit s)); simpl; [lia|].
  destruct (Py.drop_while Py.is_digit s) as [|c r'] eqn:Er; simpl; [lia|].
  pose proof (drop_while_length Py.is_digit r') as H'. simpl in H.
  destruct (Ascii.eqb_spec c "."%char) as [-> | Hc].
  - destruct (Py.is_empty (Py.take_while Py.is_digit r')); simpl; lia.
  - destruct c as [[] [] [] [] [] [] [] []]; simpl; try lia.
    now contradiction Hc.
Qed.

Lemma match_group_length (s g r : string) :
  Re.match_group s = Some (g, r) -> (String.length r < String.length s)%nat.
Proof.
  unfold Re.match_group. destruct s as [|c s']; [discriminate|].
  destruct (Ascii.eqb_spec c "-"%char) as [-> | Hc].
  - destruct (Re.match_name Re.SUFFIXES s') as [[n r0]|] eqn:En; [|discriminate].
    apply match_name_length in En.
    pose proof (match_number_length r0) as Hn.
    destruct (Re.match_number r0) as [num r']. simpl in Hn.
    intro H. inversion H. subst. simpl. lia.
  - destruct c as [[] [] [] [] [] [] [] []]; try discriminate.
    now contradiction Hc.
Qed.

Lemma match_block_fuel (n m : nat) (s : string) :
  (String.length s <= n)%nat -> (String.length s <= m)%nat ->
  Re.match_block n s = Re.match_block m s.
Proof.
  revert m s. induction n as [|n IH]; intros m s Hn Hm.
  - destruct s; [|simpl in Hn; lia]. now destruct m.
  - destruct m as [|m].
    + destruct s; [reflexivity | simpl in Hm; lia].
    + simpl. destruct (Re.match_group s) as [[g r]|] eqn:Eg; [|reflexivity].
      apply match_group_length in Eg.
      destruct (Re.at_dollar r); [reflexivity|].
      now rewrite (IH m r) by lia.
Qed.

Lemma match_block_length (n : nat) (s b r : string) :
  Re.match_block n s = Some (b, r) -> (String.length r < String.length s)%nat.
Proof.
  revert s b r. induction n as [|n IH]; simpl; intros s b r; [discriminate|].
  destruct (Re.match_group s) as [[g r0]|] eqn:Eg; [|discriminate].
  apply match_group_length in Eg.
  destruct (Re.at_dollar r0).
  - intro H. inversion H. now subst.
  - destruct (Re.match_block n r0) as [[b' r']|] eqn:Eb; [|discriminate].
    intro H. inversion H. subst. apply IH in Eb. lia.
Qed.

Lemma drop_while_length_lt (p : ascii -> bool) (c : ascii) (s : string) :
  p c = true ->
  (String.length (Py.drop_while p (String c s)) < String.length (String c s))%nat.
Proof.
  intro H. simpl. rewrite H. pose proof (drop_while_length p s). lia.
Qed.

Lemma findall_fuel (n m : nat) (s : string) :
  (String.length s <= n)%nat -> (String.length s <= m)%nat ->
  Re.findall_from n s = Re.findall_from m s.
Proof.
  revert m s. induction n as [|n IH]; intros m s Hn Hm.
  - destruct s; [|simpl in Hn; lia]. now destruct m.
  - destruct m as [|m].
    + destruct s; [reflexivity | simpl in Hm; lia].
    + cbn [Re.findall_from].
      pose proof (drop_while_length Py.is_space s) as Hs.
      destruct (Py.drop_while Py.is_space s) as [|c t'] eqn:Et; [reflexivity|].
      destruct (Py.is_digit c) eqn:Ed; [|destruct (Py.is_lower c) eqn:El;
        [|destruct (Ascii.eqb c ".") eqn:Edot]].
      * pose proof (drop_while_length_lt Py.is_digit c t' Ed).
        f_equal. apply IH; lia.
      * pose proof (drop_while_length_lt Py.is_lower c t' El).
        f_equal. apply IH; lia.
      * simpl in Hs. f_equal. apply IH; lia.
      * destruct (Re.match_block _ _) as [[b r]|] eqn:Eb.
        -- apply match_block_length in Eb. f_equal. apply IH; lia.
        -- simpl in Hs. apply IH; lia.
Qed.

(** The list of tokens is the one any larger amount of fuel gives. *)
Lemma findall_fuel_enough (n : nat) (s : string) :
  (String.length s <= n)%nat -> Re.findall_from n s = Re.component_re_findall s.
Proof. intro H. unfold Re.component_re_findall. apply findall_fuel; lia. Qed.

(** ** What the comparisons and [pick] keep in every case *)

(** X1: whenever [<] returns, exactly one of [<], [==] and [>] holds: [>] is the
    negation of [<=], and [<] answers [False] on equal operands. *)
Theorem lt_eq_gt_exclusive (self : Version) (other : object) (less : bool) :
  Version.__lt__ self other = Ok less ->
  exists greater,
    Version.__gt__ self other = Ok greater /\
    (less = true /\ Version.__eq__ self other = false /\ greater = false \/
     less = false /\ Version.__eq__ self other = true /\ greater = false \/
     less = false /\ Version.__eq__ self other = false /\ greater = true).
Proof.
  intro H. unfold Version.__gt__, Version.__le__. rewrite H. simpl.
  eexists. split; [reflexivity|].
  assert (Heq : Version.__eq__ self other = true -> less = false).
  { intro E. unfold Version.__lt__ in H. unfold Version.__eq__ in E.
    destruct (Version.as_version other) as [v|]; [|discriminate].
    change (Version.__eq__ self (PyVersion v) = true) in E.
    rewrite E in H. now inversion H. }
  destruct less, (Version.__eq__ self other); simpl; auto.
Qed.

Lemma lt_eq_gt_exclusive_witness :
  Version.__gt__ (Version.of_str "2.0") (PyStr "1.0") = Ok true /\
  Version.__eq__ (Version.of_str "2.0") (PyStr "1.0") = false.
Proof.
  destruct (lt_eq_gt_exclusive (Version.of_str "2.0") (PyStr "1.0") false eq_refl)
    as (greater & Hgt & [(H & _) | [(_ & H & _) | (_ & He & ->)]]).
  - discriminate H.
  - discriminate H.
  - split; [exact Hgt | exact He].
Defined.

(** X2: for two versions that are not [==] and of which none is [==] to a
    sentinel, components that are less make the version less: this half of
    the rule on the components holds. *)
Theorem lt_when_components_less (self other : Version) :
  Version.__eq__ self (PyVersion other) = false ->
  Version.__eq__ self (PyVersion Version.latest) = false ->
  Version.__eq__ self (PyVersion Version.lowest) = false ->
  Version.__eq__ other (PyVersion Version.latest) = false ->
  Version.__eq__ other (PyVersion Version.lowest) = false ->
  list_lt component_eq component_lt (version self) (version other) = Ok true ->
  Version.__lt__ self (PyVersion other) = Ok true.
Proof.
  intros H1 H2 H3 H4 H5 H. unfold_lt. now rewrite H1, H2, H3, H4, H5, H.
Qed.

Lemma lt_when_components_less_witness :
  Version.__lt__ (Version.of_str "1.0") (PyStr "2.0-beta1") = Ok true.
Proof.
  exact (lt_when_components_less (Version.of_str "1.0") (Version.of_str "2.0-beta1")
           eq_refl eq_refl eq_refl eq_refl eq_refl eq_refl).
Defined.

(** *** [sorted] rearranges, whatever [<] answers *)

Section SortedLaws.
Context {A : Type}.
Variable lt : A -> A -> result bool.

(** The binary search needs no more fuel than the width of its interval. *)
Lemma bisect_fuel (n m : nat) (pivot : A) (a : list A) (l r : nat) :
  (r - l <= n)%nat -> (r - l <= m)%nat ->
  bisect lt n pivot a l r = bisect lt m pivot a l r.
Proof.
  revert m l r. induction n as [|n IH]; intros m l r Hn Hm.
  - assert (E : (l <? r)%nat = false) by (apply Nat.ltb_ge; lia).
    destruct m; simpl; [reflexivity | now rewrite E].
  - destruct m as [|m].
    + assert (E : (l <? r)%nat = false) by (apply Nat.ltb_ge; lia).
      simpl. now rewrite E.
    + cbn [bisect]. destruct (Nat.ltb_spec l r) as [Hlr|]; [|reflexivity].
      assert (Hhalf : ((r - l) / 2 < r - l)%nat) by (apply Nat.div_lt; lia).
      destruct (lt pivot _) as [[]|]; cbn [bind]; [| |reflexivity]; apply IH; lia.
Qed.

Lemma insert_perm (run : list A) (pivot : A) (l : nat) :
  Permutation (pivot :: run) (firstn l run ++ pivot :: skipn l run)%list.
Proof.
  rewrite <- (firstn_skipn l run) at 1. apply Permutation_middle.
Qed.

Lemma binarysort_perm (rest run r : list A) :
  binarysort lt run rest = Ok r -> Permutation (run ++ rest)%list r.
Proof.
  revert run r. induction rest as [|pivot rest IH]; intros run r H; simpl in H.
  - inversion H. now rewrite app_nil_r.
  - inv_bind H. apply IH in H. etransitivity; [|exact H].
    etransitivity; [symmetry; apply Permutation_middle|].
    change (Permutation ((pivot :: run) ++ rest)%list
              ((firstn a run ++ pivot :: skipn a run) ++ rest)%list).
    apply Permutation_app_tail, insert_perm.
Qed.

Lemma list_sort_perm (l r : list A) : list_sort lt l = Ok r -> Permutation l r.
Proof.
  unfold list_sort. destruct (List.length l <? 2)%nat.
  - intro H. inversion H. reflexivity.
  - intro H. inv_bind H. destruct a as [n descending].
    apply binarysort_perm in H. etransitivity; [|exact H].
    rewrite <- (firstn_skipn n l) at 1. apply Permutation_app_tail.
    destruct descending; [apply Permutation_rev | reflexivity].
Qed.

Lemma sorted_reverse_perm (l r : list A) :
  sorted_reverse lt l = Ok r -> Permutation l r.
Proof.
  unfold sorted_reverse. intro H. inv_bind H. inversion H. subst r.
  apply list_sort_perm in E.
  etransitivity; [apply Permutation_rev|].
  etransitivity; [exact E | apply Permutation_rev].
Qed.

(** The comprehension keeps the items for which the test answers [True], if
    the test raises on none. *)
Lemma filterM_in (keep : A -> result bool) (l r : list A) (x : A) :
  filterM keep l = Ok r -> In x r -> In x l /\ keep x = Ok true.
Proof.
  revert r. induction l as [|y l IH]; simpl; intros r H Hx.
  - inversion H. subst r. contradiction.
  - inv_bind H. inv_bind H. inversion H. subst r. clear H.
    destruct a.
    + destruct Hx as [-> | Hx]; [split; [now left | assumption]|].
      destruct (IH _ eq_refl Hx). split; [now right | assumption].
    + destruct (IH _ eq_refl Hx). split; [now right | assumption].
Qed.

Lemma filterM_none (keep : A -> result bool) (l : list A) :
  Forall (fun x => keep x = Ok false) l -> filterM keep l = Ok [].
Proof.
  induction 1 as [|x l Hx _ IH]; simpl; [reflexivity|]. now rewrite Hx, IH.
Qed.
End SortedLaws.

(** *** [pick] *)

(** X3: whenever [pick] returns, what it returns is the entry of a key of the
    converted dictionary that answers [True] to [key <= version], so [False]
    to [key > version]. *)
Theorem pick_returns_entry_of_passing_key
    (Item : Type) (self : VersionPick.t Item) (version : object) (r : option Item) :
  VersionPick.pick self version = Ok r ->
  exists v_dict q k,
    VersionPick.convert_keys (VersionPick.version_dict self) [] = Ok v_dict /\
    Version.as_version version = Ok q /\
    In k (map fst v_dict) /\
    Version.__le__ k (PyVersion q) = Ok true /\
    Version.__gt__ k (PyVersion q) = Ok false /\
    r = VersionPick.dict_get v_dict k.
Proof.
  unfold VersionPick.pick. intro H.
  inv_bind H. rename a into v_dict.
  inv_bind H. rename a into q.
  inv_bind H. rename a into matching.
  inv_bind H. rename a into sorted_matching.
  destruct sorted_matching as [|k rest]; [discriminate|].
  inversion H. subst r. clear H.
  exists v_dict, q, k. split; [reflexivity|]. split; [reflexivity|].
  assert (Hk : In k matching).
  { apply sorted_reverse_perm in E2. apply Permutation_sym in E2.
    apply (Permutation_in k E2). now left. }
  destruct (filterM_in _ _ _ k E1 Hk) as [Hin Hle].
  split; [assumption|]. split; [assumption|]. split; [|reflexivity].
  unfold Version.__gt__. now rewrite Hle.
Qed.

Lemma pick_returns_entry_of_passing_key_witness :
  exists k : Version,
    Version.__le__ k (PyStr "1.2.0") = Ok true /\
    VersionPick.dict_get
      [(Version.of_str "1.0.0", "A"); (Version.of_str "2.5.0", "B")] k = Some "A".
Proof.
  destruct (pick_returns_entry_of_passing_key string
              {| VersionPick.version_dict :=
                   [(PyStr "1.0.0", "A"); (PyStr "2.5.0", "B")] |}
              (PyStr "1.2.0") (Some "A") eq_refl)
    as (v_dict & q & k & Hd & Hq & _ & Hle & _ & Hget).
  injection Hd as <-. injection Hq as <-.
  exists k. split; [exact Hle | symmetry; exact Hget].
Defined.

(** X4: when every key of the converted dictionary answers [False] to
    [key <= version], [pick] raises the error that names the version asked
    for and the keys. *)
Theorem pick_raises_when_no_key_passes
    (Item : Type) (self : VersionPick.t Item) (version : object)
    (v_dict : VersionPick.dict Item) (q : Version) :
  VersionPick.convert_keys (VersionPick.version_dict self) [] = Ok v_dict ->
  Version.as_version version = Ok q ->
  Forall (fun k => Version.__le__ k (PyVersion q) = Ok false) (map fst v_dict) ->
  VersionPick.pick self version =
    Raise (ValueError (MsgNotFound q (map fst v_dict))).
Proof.
  intros Hd Hq Hall. unfold VersionPick.pick. rewrite Hd. cbn [bind].
  rewrite Hq. cbn [bind].
  now rewrite (filterM_none _ _ Hall).
Qed.

Lemma pick_raises_when_no_key_passes_witness :
  VersionPick.pick
    {| VersionPick.version_dict := [(PyStr "1.0.0", "A"); (PyStr "2.5.0", "B")] |}
    (PyStr "0.5.0") =
  Raise (ValueError (MsgNotFound (Version.of_str "0.5.0")
                       [Version.of_str "1.0.0"; Version.of_str "2.5.0"])).
Proof.
  apply (pick_raises_when_no_key_passes string
           {| VersionPick.version_dict :=
                [(PyStr "1.0.0", "A"); (PyStr "2.5.0", "B")] |}
           (PyStr "0.5.0")
           [(Version.of_str "1.0.0", "A"); (Version.of_str "2.5.0", "B")]
           (Version.of_str "0.5.0") eq_refl eq_refl).
  repeat constructor.
Defined.

(** *** No malformed suffix *)



(** ** Building a version again from a version *)

Lemma rstrip_idempotent (s : string) : Py.rstrip (Py.rstrip s) = Py.rstrip s.
Proof.
  induction s as [|c s IH]; simpl; [reflexivity|].
  destruct (Py.is_space c && Py.is_empty (Py.rstrip s)) eqn:E; [reflexivity|].
  simpl. now rewrite IH, E.
Qed.

Lemma rstrip_stops (s : string) : stops Py.is_space s -> stops Py.is_space (Py.rstrip s).
Proof.
  destruct s as [|c s]; simpl; [trivial|]. intro H. now rewrite H.
Qed.

Lemma drop_while_stops (p : ascii -> bool) (s : string) :
  stops p s -> Py.drop_while p s = s.
Proof. destruct s as [|c s]; simpl; [reflexivity|]. now intros ->. Qed.

(** [strip] leaves no white space at either end, so a second [strip] changes
    nothing. *)
Lemma strip_idempotent (s : string) : Py.strip (Py.strip s) = Py.strip s.
Proof.
  unfold Py.strip.
  rewrite (drop_while_stops Py.is_space (Py.rstrip (Py.drop_while Py.is_space s))).
  - apply rstrip_idempotent.
  - apply rstrip_stops, stops_drop_while.
Qed.

Lemma kept_string_idempotent (s : string) : kept_string (kept_string s) = kept_string s.
Proof.
  unfold kept_string.
  destruct (existsb (String.eqb s) ["master"; "latest"; "upstream"]) eqn:E;
    [reflexivity | now rewrite E].
Qed.

Lemma vstring_kept (s : string) : vstring (Version.parse_text s) = kept_string s.
Proof. apply vstring_parse_text. Qed.

(** [parse] looks at its string only through the string it keeps. *)
Lemma parse_text_kept (s : string) :
  Version.parse_text (kept_string s) = Version.parse_text s.
Proof.
  unfold Version.parse_text. cbv zeta.
  fold (kept_string (kept_string s)). fold (kept_string s).
  now rewrite kept_string_idempotent.
Qed.

(** Two versions that [parse] built from the same kept string are the same
    value. *)
Lemma parse_text_determined (x y : string) :
  vstring (Version.parse_text x) = vstring (Version.parse_text y) ->
  Version.parse_text x = Version.parse_text y.
Proof.
  rewrite !vstring_kept. intro H.
  now rewrite <- (parse_text_kept x), <- (parse_text_kept y), H.
Qed.

Lemma strip_kept_strip (s : string) :
  Py.strip (kept_string (Py.strip s)) = kept_string (Py.strip s).
Proof.
  unfold kept_string.
  destruct (existsb _ _); [reflexivity | apply strip_idempotent].
Qed.

(** X6: a version built from a string survives being built again: for every
    string [s], [Version(Version(s))] succeeds and is the very value
    [Version(s)], string, components and suffix; so [Version(s)] is [==] to
    it and has its hash. *)
Theorem version_of_version (s : string) :
  Version.__init__ (PyVersion (Version.of_str s)) = Ok (Version.of_str s).
Proof.
  unfold Version.__init__, Version.parse, Version.coerce, Version.__str__.
  cbn [bind]. f_equal.
  rewrite of_str_strip, vstring_kept, strip_kept_strip.
  apply parse_text_kept.
Qed.

(** For a version built from a list the string is not stripped, and
    building it again can give another version: the blank after the suffix
    keeps the scanner from taking ['-beta'] as a suffix the first time. *)
Example version_of_list_version :
  let v := {| vstring := "1.0-beta "; version := [CInt 1; CInt 0; CStr "beta"];
              suffix := None |} in
  Version.__init__ (PyList [AStr "1.0-beta "]) = Ok v /\
  Version.__init__ (PyVersion v) =
    Ok {| vstring := "1.0-beta"; version := [CInt 1; CInt 0];
          suffix := Some ["beta"] |}.
Proof. repeat split. Qed.

(** ** Series *)

Lemma prefix_firstn {A : Type} (l1 l2 : list A) :
  l1 = firstn (List.length l1) l2 <-> exists rest, l2 = (l1 ++ rest)%list.
Proof.
  split.
  - intro H. exists (skipn (List.length l1) l2).
    rewrite H at 1. symmetry. apply firstn_skipn.
  - intros [rest ->]. rewrite firstn_app, firstn_all, Nat.sub_diag. simpl.
    now rewrite app_nil_r.
Qed.

(** Only a version whose string is ['lowest'] or ['master'] is found in the
    set of the two sentinels. *)
Lemma in_sentinels_vstring (v : Version) :
  Version.in_sentinels v = true ->
  vstring v = "lowest" \/ vstring v = "master".
Proof.
  unfold Version.in_sentinels. cbn [existsb]. rewrite orb_false_r.
  intro H. apply orb_true_iff in H as [H | H];
    apply andb_true_iff in H as [H _]; apply String.eqb_eq in H.
  - left. symmetry. exact H.
  - right. symmetry. exact H.
Qed.

(** A version that [parse] built is in the set exactly when its string is
    one of the two. *)
Lemma in_sentinels_parse_text (x : string) :
  Version.in_sentinels (Version.parse_text x) =
    String.eqb (vstring (Version.parse_text x)) "lowest"
    || String.eqb (vstring (Version.parse_text x)) "master".
Proof.
  destruct (Version.in_sentinels (Version.parse_text x)) eqn:E.
  - apply in_sentinels_vstring in E as [-> | ->]; reflexivity.
  - symmetry. apply orb_false_iff. split; apply String.eqb_neq; intro H.
    + assert (Hv : Version.parse_text x = Version.lowest)
        by (apply (parse_text_determined x "lowest"); now rewrite H).
      rewrite Hv in E. discriminate.
    + assert (Hv : Version.parse_text x = Version.latest)
        by (apply (parse_text_determined x "master"); now rewrite H).
      rewrite Hv in E. discriminate.
Qed.

(** X7: what [is_in_series] answers.  For a constructed version whose string
    is neither ['lowest'] nor ['master'] it is [True] exactly when the
    components of the series are a prefix of the components of the version,
    whatever the suffixes; for the two sentinels it is [True] exactly when
    the series is [==] to the version.  It raises only when the series
    cannot be made a version. *)
Theorem is_in_series_spec (x : string) (series : object) :
  let self := Version.parse_text x in
  match Version.as_version series with
  | Raise e => Version.is_in_series self series = Raise e
  | Ok s =>
      exists b,
        Version.is_in_series self series = Ok b /\
        (b = true <->
           if String.eqb (vstring self) "lowest" || String.eqb (vstring self) "master"
           then Version.__eq__ s (PyVersion self) = true
           else exists rest, version self = (version s ++ rest)%list)
  end.
Proof.
  intro self. unfold Version.is_in_series.
  destruct (Version.as_version series) as [s|e]; [|reflexivity].
  cbn [bind]. subst self. rewrite in_sentinels_parse_text.
  destruct (_ || _); eexists; (split; [reflexivity|]); [tauto|].
  rewrite versions_eq_spec. apply prefix_firstn.
Qed.

Lemma is_in_series_spec_witness :
  Version.is_in_series (Version.of_str "5.5.5.2-beta1") (PyStr "5.5") = Ok true /\
  Version.is_in_series (Version.of_str "5.5.5.2") (PyStr "5.6") = Ok false /\
  Version.is_in_series (Version.of_str "5.5.5.2") (PyStr "") = Ok true /\
  Version.is_in_series Version.latest (PyStr "") = Ok false /\
  Version.is_in_series (Version.of_str "5.5") PyNone =
    Raise (ValueError (Msg "Version string cannot be None")).
Proof.
  pose proof (is_in_series_spec "5.5.5.2-beta1" (PyStr "5.5")) as H1.
  pose proof (is_in_series_spec "5.5.5.2" (PyStr "5.6")) as H2.
  pose proof (is_in_series_spec "5.5.5.2" (PyStr "")) as H3.
  pose proof (is_in_series_spec "latest" (PyStr "")) as H4.
  pose proof (is_in_series_spec "5.5" PyNone) as H5.
  cbv zeta in *.
  change (Version.as_version PyNone)
    with (@Raise Version (ValueError (Msg "Version string cannot be None"))) in H5.
  destruct H1 as (b1 & E1 & _), H2 as (b2 & E2 & _), H3 as (b3 & E3 & _),
    H4 as (b4 & E4 & _).
  repeat split; first [exact E1 | exact E2 | exact E3 | exact E4 | exact H5].
Defined.

(** X8: belonging to a series is reflexive and transitive.  Every
    constructed version is in its own series, and when [a] is in the series of
    [b] and [b] in the series of [c], then [a] is in the series of [c],
    provided neither [a] nor [b] has the string of a sentinel. *)
Theorem is_in_series_preorder :
  (forall x : string,
     Version.is_in_series (Version.parse_text x)
       (PyVersion (Version.parse_text x)) = Ok true) /\
  (forall a b c : Version,
     vstring a <> "lowest" -> vstring a <> "master" ->
     vstring b <> "lowest" -> vstring b <> "master" ->
     Version.is_in_series a (PyVersion b) = Ok true ->
     Version.is_in_series b (PyVersion c) = Ok true ->
     Version.is_in_series a (PyVersion c) = Ok true).
Proof.
  split.
  - intro x. unfold Version.is_in_series. cbn [Version.as_version bind].
    destruct (Version.in_sentinels (Version.parse_text x)).
    + now rewrite parse_text_eq_refl.
    + rewrite firstn_all. now rewrite (proj2 (versions_eq_spec _ _) eq_refl).
  - intros a b c Ha Ha' Hb Hb'.
    assert (Sa : Version.in_sentinels a = false).
    { destruct (Version.in_sentinels a) eqn:E; [|reflexivity].
      apply in_sentinels_vstring in E. tauto. }
    assert (Sb : Version.in_sentinels b = false).
    { destruct (Version.in_sentinels b) eqn:E; [|reflexivity].
      apply in_sentinels_vstring in E. tauto. }
    unfold Version.is_in_series. cbn [Version.as_version bind].
    rewrite Sa, Sb. intros Hab Hbc.
    injection Hab as Hab. injection Hbc as Hbc.
    apply versions_eq_spec, prefix_firstn in Hab as [r1 Hab].
    apply versions_eq_spec, prefix_firstn in Hbc as [r2 Hbc].
    f_equal. apply versions_eq_spec, prefix_firstn.
    exists (r2 ++ r1)%list. now rewrite Hab, Hbc, app_assoc.
Qed.

Lemma is_in_series_preorder_witness :
  Version.is_in_series (Version.of_str "5.5.5.2") (PyStr "5") = Ok true.
Proof.
  destruct is_in_series_preorder as [_ Htrans].
  apply (Htrans (Version.of_str "5.5.5.2") (Version.of_str "5.5") (Version.of_str "5"));
    try discriminate; reflexivity.
Defined.

(** X9: [ver in self] never raises.  It is [False] for a [ver] that cannot
    be made a version; for a string [s], and for the version built from it, it
    is [True] exactly when [Version(s).is_in_series(self)] is. *)
Theorem contains_is_in_series (self : Version) :
  (forall ver e, Version.__init__ ver = Raise e ->
     Version.__contains__ self ver = false) /\
  (forall s : string,
     Version.__contains__ self (PyStr s) = Version.__contains__ self (PyVersion (Version.of_str s)) /\
     (Version.__contains__ self (PyStr s) = true <->
      Version.is_in_series (Version.of_str s) (PyVersion self) = Ok true)).
Proof.
  split.
  - intros ver e H. unfold Version.__contains__. now rewrite H.
  - intro s. unfold Version.__contains__.
    assert (Hagain : Version.__init__ (PyVersion (Version.of_str s)) =
                     Ok (Version.of_str s)).
    { unfold Version.__init__, Version.parse, Version.coerce, Version.__str__.
      cbn [bind]. f_equal.
      rewrite of_str_strip, vstring_kept, strip_kept_strip.
      apply parse_text_kept. }
    rewrite Hagain.
    change (Version.__init__ (PyStr s)) with (Ok (Version.of_str s)).
    split; [reflexivity|].
    destruct (Version.is_in_series (Version.of_str s) (PyVersion self)) as [b|e].
    + split; [now intros -> | now intros [= ->]].
    + split; discriminate.
Qed.

Lemma contains_is_in_series_witness :
  Version.__contains__ (Version.of_str "5.5") (PyStr "5.5.5.2") = true /\
  Version.__contains__ (Version.of_str "5.5") PyNone = false.
Proof.
  destruct (contains_is_in_series (Version.of_str "5.5")) as [Hraise Hstr].
  split.
  - apply (Hstr "5.5.5.2"). reflexivity.
  - apply (Hraise PyNone (ValueError (Msg "Version string cannot be None"))).
    reflexivity.
Defined.

(** *** The series as a string *)

Section Joining.
Variable sep : ascii.

Lemma split_not_nil (s : string) : Py.split sep s <> [].
Proof.
  destruct s as [|c s]; simpl; [discriminate|].
  destruct (Ascii.eqb c sep); [discriminate|].
  destruct (Py.split sep s); discriminate.
Qed.

(** Joining what [split] gave restores the string. *)
Lemma join_split (s : string) : Py.join (String sep "") (Py.split sep s) = s.
Proof.
  induction s as [|c s IH]; [reflexivity|]. simpl Py.split.
  pose proof (split_not_nil s) as Hne.
  destruct (Ascii.eqb_spec c sep) as [-> | Hc].
  - destruct (Py.split sep s) as [|h t]; [congruence|].
    cbn [Py.join]. cbn [Py.join] in IH. now rewrite IH.
  - destruct (Py.split sep s) as [|h t]; [congruence|].
    destruct t as [|h' t].
    + cbn [Py.join] in *. now rewrite IH.
    + change (Py.join (String sep "") (String c h :: h' :: t))
        with (String c (Py.join (String sep "") (h :: h' :: t))).
      now rewrite IH.
Qed.

(** The items of [split] hold no separator. *)
Lemma split_items (s : string) :
  Forall (fun i => all (fun c => negb (Ascii.eqb c sep)) i = true) (Py.split sep s).
Proof.
  induction s as [|c s IH]; simpl; [now repeat constructor|].
  destruct (Ascii.eqb c sep) eqn:E; [now constructor|].
  destruct (Py.split sep s) as [|h t]; [now repeat constructor; simpl; rewrite E|].
  inversion IH; subst. constructor; [|assumption]. simpl. now rewrite E.
Qed.

Lemma split_one (i : string) :
  all (fun c => negb (Ascii.eqb c sep)) i = true -> Py.split sep i = [i].
Proof.
  induction i as [|c i IH]; simpl; [reflexivity|].
  intro H. apply andb_true_iff in H as [Hc Hi].
  apply negb_true_iff in Hc. rewrite Hc. now rewrite (IH Hi).
Qed.

Lemma split_app_sep (i rest : string) :
  all (fun c => negb (Ascii.eqb c sep)) i = true ->
  Py.split sep (i ++ String sep rest) = i :: Py.split sep rest.
Proof.
  induction i as [|c i IH]; simpl.
  - intros _. now rewrite Ascii.eqb_refl.
  - intro H. apply andb_true_iff in H as [Hc Hi].
    apply negb_true_iff in Hc. rewrite Hc. now rewrite (IH Hi).
Qed.

(** Splitting what [join] gave restores the items, when there is one at least
    and none holds the separator. *)
Lemma split_join (l : list string) :
  l <> [] ->
  Forall (fun i => all (fun c => negb (Ascii.eqb c sep)) i = true) l ->
  Py.split sep (Py.join (String sep "") l) = l.
Proof.
  induction l as [|i l IH]; [congruence|]. intros _ H.
  inversion H as [|? ? Hi Hl]; subst.
  destruct l as [|j l]; [now apply split_one|].
  cbn [Py.join]. change (String sep "" ++ ?x) with (String sep x).
  rewrite split_app_sep by assumption. f_equal. apply IH; [discriminate | assumption].
Qed.

(** The join of the first items is the head of the join of all. *)
Lemma join_firstn_prefix (k : nat) (l : list string) :
  exists rest,
    Py.join (String sep "") l = Py.join (String sep "") (firstn k l) ++ rest.
Proof.
  revert k. induction l as [|i l IH]; intro k.
  - exists "". now rewrite firstn_nil.
  - destruct k as [|k]; [now eexists|]. cbn [firstn].
    destruct (IH k) as [rest Hrest].
    destruct l as [|j l].
    + exists "". rewrite firstn_nil. simpl. now rewrite append_empty.
    + destruct k as [|k].
      * simpl firstn. cbn [Py.join]. eexists. reflexivity.
      * cbn [firstn] in *. exists rest.
        change (Py.join (String sep "") (i :: j :: l))
          with (i ++ String sep "" ++ Py.join (String sep "") (j :: l)).
        change (Py.join (String sep "") (i :: j :: firstn k l))
          with (i ++ String sep "" ++ Py.join (String sep "") (j :: firstn k l)).
        rewrite Hrest. now rewrite !append_assoc.
Qed.
End Joining.

Lemma in_firstn {A : Type} (k : nat) (l : list A) (x : A) :
  In x (firstn k l) -> In x l.
Proof.
  revert k. induction l as [|y l IH]; intros [|k]; simpl; try tauto.
  intros [-> | H]; [now left | right; now apply (IH k)].
Qed.

Lemma slice_to_firstn {A : Type} (n : Z) (l : list A) :
  exists k, Py.slice_to n l = firstn k l.
Proof. unfold Py.slice_to. destruct (0 <=? n); eexists; reflexivity. Qed.

(** X10: [series(n)] cuts the string of the version at its dots.  Whatever
    [n], the result is the head of the string.  For [n >= 1] its parts
    between dots are the first [n] parts of the string, so it is the whole
    string when that has no more than [n] parts; [series(0)] is empty.  The
    parsed components play no part. *)
Theorem series_spec (self : Version) (n : Z) :
  (exists rest, vstring self = Version.series self n ++ rest) /\
  (1 <= n ->
     Py.split "." (Version.series self n) =
       firstn (Z.to_nat n) (Py.split "." (vstring self))) /\
  (Z.of_nat (List.length (Py.split "." (vstring self))) <= n ->
     Version.series self n = vstring self) /\
  Version.series self 0 = "".
Proof.
  unfold Version.series. split; [|split; [|split]].
  - destruct (slice_to_firstn n (Py.split "." (vstring self))) as [k ->].
    destruct (join_firstn_prefix "." k (Py.split "." (vstring self))) as [rest H].
    exists rest. now rewrite <- H, join_split.
  - intro Hn. unfold Py.slice_to.
    destruct (Z.leb_spec 0 n); [|lia].
    apply split_join.
    + pose proof (split_not_nil "." (vstring self)).
      destruct (Py.split "." (vstring self)); [congruence|].
      destruct (Z.to_nat n) eqn:E; [lia | discriminate].
    + apply Forall_forall. intros i Hi.
      pose proof (split_items "." (vstring self)) as Hitems.
      rewrite Forall_forall in Hitems. apply Hitems.
      now apply (in_firstn (Z.to_nat n)).
  - intro Hn. unfold Py.slice_to.
    destruct (Z.leb_spec 0 n); [|lia].
    rewrite firstn_all2 by lia. apply join_split.
  - reflexivity.
Qed.

Lemma series_spec_witness :
  Version.series (Version.of_str "5.5.5.2-beta1") 2 = "5.5" /\
  Version.series (Version.of_str "5") 2 = "5".
Proof.
  destruct (series_spec (Version.of_str "5.5.5.2-beta1") 2) as (_ & Hparts & _).
  destruct (series_spec (Version.of_str "5") 2) as (_ & _ & Hall & _).
  split.
  - specialize (Hparts ltac:(discriminate)).
    rewrite <- (join_split "." (Version.series (Version.of_str "5.5.5.2-beta1") 2)).
    now rewrite Hparts.
  - apply Hall. discriminate.
Defined.

(** ** The functions on text *)

Lemma plain_char_cases (c : ascii) :
  is_plain_char c = true ->
  (c = " "%char) \/
  (Py.is_space c = false /\ is_attribute_char c = true /\ c <> "_"%char).
Proof.
  intro H. destruct (Ascii.eqb_spec c " "%char) as [-> | Hc]; [now left|].
  right. repeat split; [by_chars c | by_chars c |].
  intros ->. discriminate.
Qed.

Lemma attribute_char_facts (c : ascii) :
  is_attribute_char c = true ->
  Py.is_space c = false /\ Py.lower_char c = c /\
  is_plain_char (if Ascii.eqb c "_" then " "%char else c) = true /\
  (c <> "_"%char ->
   Py.is_space c = false /\ is_plain_char c = true).
Proof.
  intro H. repeat split; by_chars c.
Qed.

Lemma filter_chars_all (p : ascii -> bool) (s : string) : all p (Py.filter_chars p s) = true.
Proof.
  induction s as [|c s IH]; simpl; [reflexivity|].
  destruct (p c) eqn:E; [simpl; now rewrite E|assumption].
Qed.

Lemma filter_chars_id (p : ascii -> bool) (s : string) :
  all p s = true -> Py.filter_chars p s = s.
Proof.
  induction s as [|c s IH]; simpl; [reflexivity|].
  intro H. apply andb_true_iff in H as [Hc Hs]. rewrite Hc. now rewrite IH.
Qed.

Lemma no_double_cons (c a b : ascii) (s : string) :
  no_double c (String a (String b s)) =
    negb (Ascii.eqb a c && Ascii.eqb b c) && no_double c (String b s).
Proof. reflexivity. Qed.

(** Replacing the runs of spaces of a text of [[a-z0-9 ]] by an underscore
    gives a text of [[a-z0-9_]] without two underscores in a row, and no
    underscore at its head when the run has begun. *)
Lemma replace_spaces_attribute (in_run : bool) (t : string) :
  all is_plain_char t = true ->
  all is_attribute_char (replace_spaces "_" in_run t) = true /\
  no_double "_" (replace_spaces "_" in_run t) = true /\
  (in_run = true -> not_first "_" (replace_spaces "_" in_run t) = true).
Proof.
  revert in_run. induction t as [|c t IH]; intros in_run H; simpl.
  - repeat split.
  - apply andb_true_iff in H as [Hc Ht].
    destruct (plain_char_cases c Hc) as [-> | (Hs & Ha & Hu)].
    + change (Py.is_space " ") with true. cbv iota.
      destruct (IH true Ht) as (IHa & IHd & IHf). specialize (IHf eq_refl).
      destruct in_run; [now repeat split|].
      change ("_" ++ ?x) with (String "_" x).
      split; [simpl; exact IHa|]. split; [|discriminate].
      destruct (replace_spaces "_" true t) as [|b r] eqn:E; [reflexivity|].
      rewrite no_double_cons, IHd. simpl in IHf.
      apply negb_true_iff in IHf. rewrite IHf. reflexivity.
    + rewrite Hs. destruct (IH false Ht) as (IHa & IHd & _).
      assert (Hne : Ascii.eqb c "_" = false) by now apply Ascii.eqb_neq.
      split; [simpl; now rewrite Ha, IHa|]. split.
      * destruct (replace_spaces "_" false t) as [|b r] eqn:E; [reflexivity|].
        now rewrite no_double_cons, Hne, IHd.
      * intros _. simpl. now rewrite Hne.
Qed.

(** X11: [attributize_string] returns a string of lower-case letters, digits
    and underscores in which no two underscores follow each other, as its
    documentation says. *)
Theorem attributize_string_shape (text : string) :
  all is_attribute_char (attributize_string text) = true /\
  no_double "_" (attributize_string text) = true.
Proof.
  unfold attributize_string, _replace_spaces_with, _prenormalize_text.
  destruct (replace_spaces_attribute false
              (Py.filter_chars is_plain_char
                 (Py.replace_char "_" " " (Py.lower (Py.strip text))))
              (filter_chars_all _ _)) as (Ha & Hd & _).
  now split.
Qed.

(** A text of [[a-z0-9_]] holds no white space and no capital letter. *)
Lemma attribute_text_strip (u : string) :
  all is_attribute_char u = true -> Py.strip u = u.
Proof.
  intro H. unfold Py.strip.
  assert (Hr : forall v, all is_attribute_char v = true -> Py.rstrip v = v).
  { induction v as [|c v IH]; simpl; [reflexivity|].
    intro Hv. apply andb_true_iff in Hv as [Hc Hv].
    destruct (attribute_char_facts c Hc) as (Hs & _). rewrite Hs. simpl.
    now rewrite IH. }
  rewrite drop_while_stops; [now apply Hr|].
  destruct u as [|c u]; [exact I|].
  cbn [all] in H. apply andb_true_iff in H as [Hc _].
  exact (proj1 (attribute_char_facts c Hc)).
Qed.

Lemma attribute_text_lower (u : string) :
  all is_attribute_char u = true -> Py.lower u = u.
Proof.
  induction u as [|c u IH]; simpl; [reflexivity|].
  intro H. apply andb_true_iff in H as [Hc Hu].
  destruct (attribute_char_facts c Hc) as (_ & Hl & _).
  unfold Py.lower in *. simpl. now rewrite Hl, IH.
Qed.

Lemma attribute_text_replaced (u : string) :
  all is_attribute_char u = true ->
  all is_plain_char (Py.replace_char "_" " " u) = true.
Proof.
  induction u as [|c u IH]; simpl; [reflexivity|].
  intro H. apply andb_true_iff in H as [Hc Hu].
  destruct (attribute_char_facts c Hc) as (_ & _ & Hp & _).
  rewrite Hp. now apply IH.
Qed.

(** Putting the underscores back: on a text of [[a-z0-9_]] without two
    underscores in a row, the spaces that stand for the underscores are
    single, and each becomes an underscore again. *)
Lemma replace_spaces_restores (in_run : bool) (u : string) :
  all is_attribute_char u = true ->
  no_double "_" u = true ->
  (in_run = true -> not_first "_" u = true) ->
  replace_spaces "_" in_run (Py.replace_char "_" " " u) = u.
Proof.
  revert in_run. induction u as [|c u IH]; intros in_run Ha Hd Hf; [reflexivity|].
  cbn [all] in Ha. apply andb_true_iff in Ha as [Hc Ha].
  assert (Hd' : no_double "_" u = true).
  { destruct u as [|b u]; [reflexivity|]. rewrite no_double_cons in Hd.
    now apply andb_true_iff in Hd as [_ Hd]. }
  unfold Py.replace_char. cbn [Py.map_chars replace_spaces].
  fold (Py.replace_char "_" " " u).
  destruct (Ascii.eqb_spec c "_"%char) as [-> | Hne].
  - change (Py.is_space " ") with true. cbv iota.
    destruct in_run; [specialize (Hf eq_refl); discriminate|].
    change ("_" ++ ?x) with (String "_" x). f_equal.
    apply IH; try assumption. intros _.
    destruct u as [|b u]; [reflexivity|]. rewrite no_double_cons in Hd.
    apply andb_true_iff in Hd as [Hd _].
    rewrite Ascii.eqb_refl in Hd. exact Hd.
  - destruct (attribute_char_facts c Hc) as (Hs & _). rewrite Hs. f_equal.
    apply IH; try assumption. discriminate.
Qed.

(** X12: [attributize_string] is idempotent: a string it returned comes back
    unchanged. *)
Theorem attributize_string_idempotent (text : string) :
  attributize_string (attributize_string text) = attributize_string text.
Proof.
  assert (Hshape : all is_attribute_char (attributize_string text) = true /\
                   no_double "_" (attributize_string text) = true).
  { unfold attributize_string, _replace_spaces_with, _prenormalize_text.
    destruct (replace_spaces_attribute false
                (Py.filter_chars is_plain_char
                   (Py.replace_char "_" " " (Py.lower (Py.strip text))))
                (filter_chars_all _ _)) as (Ha & Hd & _).
    now split. }
  destruct Hshape as [Ha Hd].
  set (u := attributize_string text) in *.
  unfold attributize_string at 1.
  unfold _replace_spaces_with, _prenormalize_text.
  rewrite (attribute_text_strip u Ha), (attribute_text_lower u Ha).
  rewrite filter_chars_id by now apply attribute_text_replaced.
  apply replace_spaces_restores; try assumption. discriminate.
Qed.

(** White space other than the blank is removed, not replaced; an underscore
    at either end stays. *)
Example attributize_string_examples :
  attributize_string "  Foo  Bar-Baz_1 " = "foo_barbaz_1" /\
  attributize_string (String (ascii_of_nat 9) "a" ++ String (ascii_of_nat 9) "b") = "ab" /\
  attributize_string "_a_" = "_a_" /\
  attributize_string "" = "".
Proof. repeat split. Qed.

Lemma all_cons (p : ascii -> bool) (c : ascii) (s : string) :
  all p (String c s) = p c && all p s.
Proof. reflexivity. Qed.

Lemma rstrip_fixed_cons (c : ascii) (t : string) :
  Py.rstrip (String c t) = String c t ->
  Py.rstrip t = t /\ (Py.is_space c = true -> t <> "").
Proof.
  simpl. destruct (Py.is_space c) eqn:Hs; simpl.
  - destruct (Py.rstrip t) as [|b r] eqn:E; simpl; [discriminate|].
    intro H. injection H as H. split; [assumption|]. intros _ ->. discriminate.
  - intro H. injection H as H. split; [assumption | discriminate].
Qed.

Lemma replace_spaces_not_empty (delim : string) (in_run : bool) (t : string) :
  Py.rstrip t = t -> t <> "" -> replace_spaces delim in_run t <> "".
Proof.
  revert in_run. induction t as [|c t IH]; intros in_run Hfix Hne; [congruence|].
  destruct (rstrip_fixed_cons c t Hfix) as [Ht Hc]. simpl.
  destruct (Py.is_space c) eqn:Hs; [|discriminate].
  specialize (IH true Ht (Hc eq_refl)).
  destruct in_run; [assumption|].
  destruct delim; simpl; [assumption | discriminate].
Qed.

(** With a blank for the runs, a text without white space at its end gives a
    text without white space at its end, in which every white space is a
    single blank. *)
Lemma replace_spaces_blank (in_run : bool) (t : string) :
  Py.rstrip t = t ->
  let out := replace_spaces " " in_run t in
  Py.rstrip out = out /\
  all is_blank_or_visible out = true /\
  no_double " " out = true /\
  (in_run = true -> not_first " " out = true).
Proof.
  revert in_run. induction t as [|c t IH]; intros in_run Hfix; [now repeat split|].
  destruct (rstrip_fixed_cons c t Hfix) as [Ht Hc]. cbv zeta. cbn [replace_spaces].
  destruct (Py.is_space c) eqn:Hs.
  - destruct (IH true Ht) as (IHr & IHa & IHd & IHf). specialize (IHf eq_refl).
    pose proof (replace_spaces_not_empty " " true t Ht (Hc eq_refl)) as Hne.
    destruct in_run; [now repeat split|].
    change (" " ++ ?x) with (String " " x).
    destruct (replace_spaces " " true t) as [|b r] eqn:E; [congruence|].
    split; [|split; [|split; [|discriminate]]].
    + change (Py.rstrip (String " " (String b r)))
        with (if Py.is_space " " && Py.is_empty (Py.rstrip (String b r))
              then "" else String " " (Py.rstrip (String b r))).
      now rewrite IHr.
    + now rewrite all_cons, IHa.
    + rewrite no_double_cons, IHd. simpl in IHf.
      apply negb_true_iff in IHf. now rewrite IHf.
  - destruct (IH false Ht) as (IHr & IHa & IHd & _).
    assert (Hne : Ascii.eqb c " " = false).
    { apply Ascii.eqb_neq. intros ->. discriminate. }
    split; [|split; [|split]].
    + change (Py.rstrip (String c ?x))
        with (if Py.is_space c && Py.is_empty (Py.rstrip x)
              then "" else String c (Py.rstrip x)).
      now rewrite Hs, IHr.
    + rewrite all_cons, IHa. unfold is_blank_or_visible. now rewrite Hs.
    + destruct (replace_spaces " " false t) as [|b r] eqn:E; [reflexivity|].
      now rewrite no_double_cons, Hne, IHd.
    + intros _. simpl. now rewrite Hne.
Qed.

Lemma replace_spaces_stops (delim : string) (t : string) :
  stops Py.is_space t -> stops Py.is_space (replace_spaces delim false t).
Proof.
  destruct t as [|c t]; simpl; [trivial|]. intro H. now rewrite H.
Qed.

Lemma strip_fixed (s : string) :
  Py.rstrip (Py.strip s) = Py.strip s /\ stops Py.is_space (Py.strip s).
Proof.
  unfold Py.strip. split; [apply rstrip_idempotent|].
  apply rstrip_stops, stops_drop_while.
Qed.

Lemma filter_drop_while (s : string) :
  Py.filter_chars (fun c => negb (Py.is_space c)) (Py.drop_while Py.is_space s) =
  Py.filter_chars (fun c => negb (Py.is_space c)) s.
Proof.
  induction s as [|c s IH]; simpl; [reflexivity|].
  destruct (Py.is_space c) eqn:E; simpl; [assumption | now rewrite E].
Qed.

Lemma filter_rstrip (s : string) :
  Py.filter_chars (fun c => negb (Py.is_space c)) (Py.rstrip s) =
  Py.filter_chars (fun c => negb (Py.is_space c)) s.
Proof.
  induction s as [|c s IH]; simpl; [reflexivity|].
  destruct (Py.is_space c) eqn:E; simpl.
  - destruct (Py.rstrip s) as [|b r] eqn:Er; simpl in *.
    + assumption.
    + rewrite E. simpl. assumption.
  - rewrite E. simpl. now rewrite IH.
Qed.

Lemma filter_replace_spaces (in_run : bool) (t : string) :
  Py.filter_chars (fun c => negb (Py.is_space c)) (replace_spaces " " in_run t) =
  Py.filter_chars (fun c => negb (Py.is_space c)) t.
Proof.
  revert in_run. induction t as [|c t IH]; intro in_run; simpl; [reflexivity|].
  destruct (Py.is_space c) eqn:E; simpl.
  - destruct in_run; [apply IH|]. simpl. apply IH.
  - rewrite E. simpl. now rewrite IH.
Qed.

(** On a text in which every white space is a single blank, replacing the
    runs by a blank changes nothing. *)
Lemma replace_spaces_fixed (in_run : bool) (u : string) :
  all is_blank_or_visible u = true ->
  no_double " " u = true ->
  (in_run = true -> not_first " " u = true) ->
  replace_spaces " " in_run u = u.
Proof.
  revert in_run. induction u as [|c u IH]; intros in_run Ha Hd Hf; [reflexivity|].
  cbn [all] in Ha. apply andb_true_iff in Ha as [Hc Ha].
  assert (Hd' : no_double " " u = true).
  { destruct u as [|b u]; [reflexivity|]. rewrite no_double_cons in Hd.
    now apply andb_true_iff in Hd as [_ Hd]. }
  cbn [replace_spaces]. destruct (Py.is_space c) eqn:Hs.
  - assert (c = " "%char) as ->.
    { unfold is_blank_or_visible in Hc. rewrite Hs in Hc. simpl in Hc.
      now apply Ascii.eqb_eq. }
    destruct in_run; [specialize (Hf eq_refl); discriminate|].
    change (" " ++ ?x) with (String " " x). f_equal.
    apply IH; try assumption. intros _.
    destruct u as [|b u]; [reflexivity|]. rewrite no_double_cons in Hd.
    apply andb_true_iff in Hd as [Hd _].
    rewrite Ascii.eqb_refl in Hd. exact Hd.
  - f_equal. apply IH; try assumption. discriminate.
Qed.

(** X13: [normalize_space] returns a text with no white space at either end
    ([strip] leaves it as it is), in which every white space is a blank and no
    two blanks follow each other; the other characters are those of the
    text, in their order.  So it is idempotent. *)
Theorem normalize_space_spec (text : string) :
  let out := normalize_space text in
  Py.strip out = out /\
  all is_blank_or_visible out = true /\
  no_double " " out = true /\
  Py.filter_chars (fun c => negb (Py.is_space c)) out =
    Py.filter_chars (fun c => negb (Py.is_space c)) text /\
  normalize_space out = out.
Proof.
  cbv zeta. unfold normalize_space, _replace_spaces_with.
  destruct (strip_fixed text) as [Hfix Hstop].
  destruct (replace_spaces_blank false (Py.strip text) Hfix) as (Hr & Ha & Hd & _).
  set (out := replace_spaces " " false (Py.strip text)) in *.
  assert (Hstrip : Py.strip out = out).
  { unfold Py.strip. rewrite drop_while_stops; [assumption|].
    now apply replace_spaces_stops. }
  split; [assumption|]. split; [assumption|]. split; [assumption|]. split.
  - unfold out. rewrite filter_replace_spaces. unfold Py.strip.
    now rewrite filter_rstrip, filter_drop_while.
  - rewrite Hstrip. apply replace_spaces_fixed; try assumption. discriminate.
Qed.

Example normalize_space_examples :
  normalize_space "  a   b " = "a b" /\
  normalize_space (String (ascii_of_nat 9) "a" ++ String (ascii_of_nat 10) "b") = "a b" /\
  normalize_space "   " = "".
Proof. repeat split. Qed.

(** ** [sorted] under an order *)

Section StronglySortedLists.
Context {A : Type}.
Variable Q : A -> A -> Prop.

Lemma SS_app_iff (l1 l2 : list A) :
  StronglySorted Q (l1 ++ l2) <->
  StronglySorted Q l1 /\ StronglySorted Q l2 /\
  Forall (fun x => Forall (Q x) l2) l1.
Proof.
  induction l1 as [|a l1 IH]; simpl.
  - split; [intro H; repeat split; [constructor | assumption | constructor] | tauto].
  - split.
    + intro H. inversion H as [|? ? Hs Hf]; subst.
      apply IH in Hs as (H1 & H2 & H12). apply Forall_app in Hf as [Hf1 Hf2].
      repeat split; [now constructor | assumption | now constructor].
    + intros (H1 & H2 & H12). inversion H1; subst. inversion H12; subst.
      constructor; [apply IH; now repeat split | now apply Forall_app].
Qed.

End StronglySortedLists.

Lemma SS_rev {A : Type} (Q : A -> A -> Prop) (l : list A) :
  StronglySorted Q l -> StronglySorted (fun a b => Q b a) (rev l).
Proof.
  induction 1 as [|a l Hs IH Hf]; simpl; [constructor|].
  apply (SS_app_iff (fun a b => Q b a)).
  split; [assumption|]. split; [repeat constructor|].
  apply Forall_rev. eapply Forall_impl; [|exact Hf].
  intros x Hx. now repeat constructor.
Qed.

Lemma SS_weaken {A : Type} (Q Q' : A -> A -> Prop) (l : list A) :
  (forall a b, Q a b -> Q' a b) -> StronglySorted Q l -> StronglySorted Q' l.
Proof.
  intro H. induction 1 as [|a l Hs IH Hf]; constructor; [assumption|].
  eapply Forall_impl; [|exact Hf]. intros x. apply H.
Qed.

Lemma skipn_nth {A : Type} (p : nat) (a : list A) (d : A) :
  (p < List.length a)%nat -> skipn p a = nth p a d :: skipn (S p) a.
Proof.
  revert a. induction p as [|p IH]; intros [|x a] H; simpl in *; try lia.
  - reflexivity.
  - apply IH. lia.
Qed.

Lemma firstn_nth {A : Type} (p : nat) (a : list A) (d : A) :
  (p < List.length a)%nat -> firstn (S p) a = (firstn p a ++ [nth p a d])%list.
Proof.
  revert a. induction p as [|p IH]; intros [|x a] H; simpl in *; try lia.
  - reflexivity.
  - f_equal. apply IH. lia.
Qed.

Section SortedOrder.
Context {A : Type}.
Variable lt : A -> A -> result bool.

(** On the items that satisfy [P], [<] raises nothing and answers as the
    relation [R], which is asymmetric, and whose negation is transitive. *)
Variable P : A -> Prop.
Variable R : A -> A -> bool.
Hypothesis lt_R : forall a b, P a -> P b -> lt a b = Ok (R a b).
Hypothesis R_asym : forall a b, R a b = true -> R b a = false.
Hypothesis R_negtrans :
  forall a b c, R a b = false -> R b c = false -> R a c = false.

Lemma not_above_trans (a b c : A) :
  not_above R a b -> not_above R b c -> not_above R a c.
Proof. unfold not_above. intros Hab Hbc. now apply (R_negtrans c b a). Qed.

Lemma R_trans (a b c : A) : R a b = true -> R b c = true -> R a c = true.
Proof.
  intros Hab Hbc. destruct (R a c) eqn:E; [reflexivity|].
  apply R_asym in Hbc. rewrite (R_negtrans a c b E Hbc) in Hab. discriminate.
Qed.

(** Below a greater item: what is above an item that [pivot] is below is
    above [pivot]. *)
Lemma R_below (pivot x y : A) :
  R pivot x = true -> not_above R x y -> R pivot y = true.
Proof.
  unfold not_above. intros Hx Hxy. destruct (R pivot y) eqn:E; [reflexivity|].
  rewrite (R_negtrans pivot y x E Hxy) in Hx. discriminate.
Qed.

Lemma extend_run_spec (descending : bool) (l : list A) (prev : A) :
  P prev -> Forall P l ->
  exists n, extend_run lt descending prev l = Ok n /\ (n <= List.length l)%nat /\
            chain R descending prev (firstn n l).
Proof.
  revert prev. induction l as [|x l IH]; intros prev Hp Hl; simpl.
  - exists O. now repeat split.
  - inversion Hl; subst. rewrite lt_R by assumption. cbn [bind].
    destruct (Bool.eqb (R x prev) descending) eqn:E.
    + destruct (IH x) as (n & Hn & Hlen & Hc); try assumption.
      rewrite Hn. cbn [bind]. exists (S n). split; [reflexivity|].
      split; [lia|]. simpl. split; [now apply Bool.eqb_prop | assumption].
    + exists O. split; [reflexivity|]. split; [lia | exact I].
Qed.

Lemma chain_ascending (prev : A) (l : list A) :
  chain R false prev l -> StronglySorted (not_above R) (prev :: l).
Proof.
  revert prev. induction l as [|x l IH]; intros prev H.
  - repeat constructor.
  - destruct H as [Hx Hc]. specialize (IH x Hc).
    constructor; [assumption|]. inversion IH; subst.
    constructor; [exact Hx|].
    eapply Forall_impl; [|eassumption].
    intros y Hy. now apply (not_above_trans prev x y).
Qed.

Lemma chain_descending (prev : A) (l : list A) :
  chain R true prev l -> StronglySorted (fun a b => R b a = true) (prev :: l).
Proof.
  revert prev. induction l as [|x l IH]; intros prev H.
  - repeat constructor.
  - destruct H as [Hx Hc]. specialize (IH x Hc).
    constructor; [assumption|]. inversion IH; subst.
    constructor; [exact Hx|].
    eapply Forall_impl; [|eassumption].
    intros y Hy. now apply (R_trans y x prev).
Qed.

(** The run, turned round when it descends, is in order. *)
Lemma count_run_spec (l : list A) :
  Forall P l -> l <> [] ->
  exists n descending,
    count_run lt l = Ok (n, descending) /\ (n <= List.length l)%nat /\
    StronglySorted (not_above R)
      (if descending then rev (firstn n l) else firstn n l).
Proof.
  intros Hl Hne. destruct l as [|x [|y l]]; [congruence| |].
  - exists 1%nat, false. repeat split; [simpl; lia | repeat constructor].
  - inversion Hl as [|? ? Hx Hl']; subst. inversion Hl' as [|? ? Hy Hl'']; subst.
    cbn [count_run]. rewrite lt_R by assumption. cbn [bind].
    destruct (extend_run_spec (R y x) l y Hy Hl'') as (n & Hn & Hlen & Hc).
    rewrite Hn. cbn [bind]. exists (S (S n)), (R y x).
    split; [reflexivity|]. split; [simpl; lia|].
    cbn [firstn]. destruct (R y x) eqn:E.
    + apply (SS_weaken (fun a b => R a b = true)); [intros a b; apply R_asym|].
      apply (SS_rev (fun a b => R b a = true)).
      apply (chain_descending x (y :: firstn n l)). now split.
    + apply (chain_ascending x (y :: firstn n l)). now split.
Qed.

(** The binary search finds a place that keeps the list in order: nothing
    before it is above [pivot], everything from it on is. *)
Lemma bisect_spec (fuel : nat) (pivot : A) (a : list A) (l r : nat) :
  StronglySorted (not_above R) a -> Forall P a -> P pivot ->
  (l <= r <= List.length a)%nat -> (r - l <= fuel)%nat ->
  Forall (fun x => R pivot x = false) (firstn l a) ->
  Forall (fun x => R pivot x = true) (skipn r a) ->
  exists k, bisect lt fuel pivot a l r = Ok k /\
            Forall (fun x => R pivot x = false) (firstn k a) /\
            Forall (fun x => R pivot x = true) (skipn k a).
Proof.
  intros Hs Ha Hp. revert l r.
  induction fuel as [|fuel IH]; intros l r Hlr Hfuel Hl Hr.
  - assert (l = r) by lia. subst r. exists l. now repeat split.
  - cbn [bisect]. destruct (Nat.ltb_spec l r) as [Hlt|Hge].
    + assert (Hhalf : ((r - l) / 2 < r - l)%nat) by (apply Nat.div_lt; lia).
      set (p := (l + (r - l) / 2)%nat) in *.
      assert (Hplen : (p < List.length a)%nat) by (unfold p; lia).
      set (x := nth p a pivot).
      assert (Hx : P x).
      { rewrite Forall_forall in Ha. apply Ha. now apply nth_In. }
      pose proof Hs as Hsplit.
      rewrite <- (firstn_skipn p a), (skipn_nth p a pivot Hplen) in Hsplit.
      fold x in Hsplit.
      apply SS_app_iff in Hsplit as (_ & Hright & Hcross).
      inversion Hright as [|? ? _ Hafter]; subst.
      rewrite lt_R by assumption. cbn [bind].
      destruct (R pivot x) eqn:E.
      * apply IH; [unfold p; lia | unfold p; lia | assumption |].
        rewrite (skipn_nth p a pivot Hplen). fold x.
        constructor; [assumption|].
        eapply Forall_impl; [|exact Hafter].
        intros y Hy. now apply (R_below pivot x y).
      * apply IH; [unfold p; lia | unfold p; lia | | assumption].
        rewrite (firstn_nth p a pivot Hplen). fold x.
        apply Forall_app. split; [|now repeat constructor].
        eapply Forall_impl; [|exact Hcross].
        intros y Hy. inversion Hy; subst.
        now apply (R_negtrans pivot x y).
    + assert (l = r) by lia. subst r. exists l. now repeat split.
Qed.

Lemma binarysort_spec (rest run : list A) :
  StronglySorted (not_above R) run -> Forall P run -> Forall P rest ->
  exists s, binarysort lt run rest = Ok s /\ StronglySorted (not_above R) s.
Proof.
  revert run. induction rest as [|pivot rest IH]; intros run Hs Hrun Hrest.
  - exists run. now split.
  - inversion Hrest as [|? ? Hp Hrest']; subst. cbn [binarysort].
    destruct (bisect_spec (List.length run) pivot run O (List.length run))
      as (k & Hk & Hbefore & Hafter); try assumption; try lia.
    { constructor. }
    { rewrite skipn_all. constructor. }
    rewrite Hk. cbn [bind]. apply IH; [|..].
    + pose proof Hs as Hsplit. rewrite <- (firstn_skipn k run) in Hsplit.
      apply SS_app_iff in Hsplit as (H1 & H2 & H12).
      apply SS_app_iff. split; [assumption|]. split.
      * constructor; [assumption|].
        eapply Forall_impl; [|exact Hafter]. intros y. apply R_asym.
      * rewrite Forall_forall in *. intros y Hy. constructor.
        -- apply (Hbefore y Hy).
        -- apply (H12 y Hy).
    + apply Forall_app. split.
      * rewrite Forall_forall in *. intros y Hy. apply Hrun.
        now apply (in_firstn k).
      * constructor; [assumption|].
        rewrite Forall_forall in *. intros y Hy. apply Hrun.
        rewrite <- (firstn_skipn k run). apply in_or_app. now right.
    + assumption.
Qed.

(** The sort raises nothing and gives the items in order. *)
Lemma list_sort_spec (l : list A) :
  Forall P l ->
  exists s, list_sort lt l = Ok s /\ Permutation l s /\
            StronglySorted (not_above R) s.
Proof.
  intro Hl. unfold list_sort.
  destruct (Nat.ltb_spec (List.length l) 2) as [Hshort|Hlong].
  - exists l. split; [reflexivity|]. split; [reflexivity|].
    destruct l as [|x [|y l]]; [constructor | repeat constructor | simpl in *; lia].
  - destruct (count_run_spec l Hl) as (n & d & Hc & Hn & Hrun).
    { intros ->. simpl in *. lia. }
    rewrite Hc. cbn [bind].
    assert (Hfirst : Forall P (firstn n l)).
    { rewrite Forall_forall in *. intros y Hy. apply Hl. now apply (in_firstn n). }
    assert (Hskip : Forall P (skipn n l)).
    { rewrite Forall_forall in *. intros y Hy. apply Hl.
      rewrite <- (firstn_skipn n l). apply in_or_app. now right. }
    destruct (binarysort_spec (skipn n l)
                (if d then rev (firstn n l) else firstn n l)) as (s & Hsort & Hs);
      try assumption.
    { destruct d; [now apply Forall_rev | assumption]. }
    exists s. split; [assumption|]. split; [|assumption].
    apply (list_sort_perm lt). unfold list_sort.
    destruct (Nat.ltb_spec (List.length l) 2); [lia|].
    rewrite Hc. cbn [bind]. exact Hsort.
Qed.

(** [sorted(l, reverse=True)] raises nothing, and no item is above its
    first. *)
Lemma sorted_reverse_spec (l : list A) :
  Forall P l ->
  exists r, sorted_reverse lt l = Ok r /\ Permutation l r /\
            match r with
            | [] => l = []
            | k :: _ => In k l /\ Forall (fun x => R k x = false) l
            end.
Proof.
  intro Hl. unfold sorted_reverse.
  destruct (list_sort_spec (rev l)) as (s & Hsort & Hperm & Hs);
    [now apply Forall_rev|].
  rewrite Hsort. cbn [bind]. exists (rev s). split; [reflexivity|].
  assert (Hp : Permutation l (rev s)).
  { etransitivity; [apply Permutation_rev|].
    etransitivity; [exact Hperm | apply Permutation_rev]. }
  split; [assumption|].
  destruct (rev s) as [|k r] eqn:E.
  - now apply Permutation_sym, Permutation_nil in Hp.
  - split; [apply (Permutation_in k (Permutation_sym Hp)); now left|].
    assert (Es : s = (rev r ++ [k])%list).
    { rewrite <- (rev_involutive s), E. reflexivity. }
    rewrite Es in Hs. apply SS_app_iff in Hs as (_ & _ & Hcross).
    assert (Hk : R k k = false).
    { destruct (R k k) eqn:Ek; [|reflexivity]. now rewrite (R_asym k k Ek) in Ek. }
    rewrite Forall_forall in *. intros x Hx.
    apply (Permutation_in x Hp) in Hx. destruct Hx as [<- | Hx]; [assumption|].
    specialize (Hcross x (proj1 (in_rev r x) Hx)).
    inversion Hcross; subst. assumption.
Qed.
End SortedOrder.

(** ** Versions of numbers, and the sentinels *)

Lemma ordinary_rank (v : Version) :
  ordinary v ->
  suffix v = None /\ (rank v = 1 -> forallb is_int (version v) = true).
Proof.
  intros [Hs [Hi | [Hl | Hl]]]; (split; [assumption|]); [trivial | |];
    unfold rank; rewrite Hl; discriminate.
Qed.

Lemma ints_ltb_irrefl (x : list Z) : ints_ltb x x = false.
Proof. induction x as [|a x IH]; simpl; [reflexivity|]. now rewrite Z.eqb_refl. Qed.

Lemma ints_ltb_asym (x y : list Z) : ints_ltb x y = true -> ints_ltb y x = false.
Proof.
  revert y. induction x as [|a x IH]; intros [|b y]; simpl; try congruence.
  destruct (Z.eqb_spec a b) as [-> | Hab].
  - rewrite Z.eqb_refl. apply IH.
  - destruct (Z.eqb_spec b a); [congruence|].
    rewrite !Z.ltb_lt, Z.ltb_ge. lia.
Qed.

Lemma ints_ltb_negtrans (x y z : list Z) :
  ints_ltb x y = false -> ints_ltb y z = false -> ints_ltb x z = false.
Proof.
  revert y z. induction x as [|a x IH]; intros [|b y] [|c z]; simpl;
    try congruence.
  destruct (Z.eqb_spec a b) as [Hab | Hab], (Z.eqb_spec b c) as [Hbc | Hbc],
           (Z.eqb_spec a c) as [Hac | Hac];
    rewrite ?Z.ltb_ge; try lia.
  apply IH.
Qed.

Lemma ints_ltb_total (x y : list Z) :
  ints_ltb x y = false -> ints_ltb y x = true \/ x = y.
Proof.
  revert y. induction x as [|a x IH]; intros [|b y]; simpl; auto; try congruence.
  destruct (Z.eqb_spec a b) as [-> | Hab].
  - rewrite Z.eqb_refl. intro H. destruct (IH y H) as [H' | ->]; auto.
  - destruct (Z.eqb_spec b a); [congruence|].
    rewrite Z.ltb_ge, Z.ltb_lt. intro H. left. lia.
Qed.

(** What [ints_ltb] computes is the lexicographic order. *)
Lemma ints_ltb_lexicographic (x y : list Z) :
  ints_ltb x y = true <-> lexicographic Z.lt x y.
Proof.
  revert y. induction x as [|a x IH]; intros [|b y]; simpl.
  - split; [discriminate | inversion 1].
  - split; [constructor | reflexivity].
  - split; [discriminate | inversion 1].
  - destruct (Z.eqb_spec a b) as [-> | Hab].
    + rewrite IH. split; [now constructor|].
      inversion 1; subst; [lia | assumption].
    + rewrite Z.ltb_lt. split; [now constructor|].
      inversion 1; subst; [assumption | congruence].
Qed.

Lemma ordinary_less_asym (a b : Version) :
  ordinary_less a b = true -> ordinary_less b a = false.
Proof.
  unfold ordinary_less. rewrite (Z.eqb_sym (rank b) (rank a)).
  destruct (Z.eqb_spec (rank a) (rank b)) as [E | E].
  - rewrite <- E. intro H. apply andb_true_iff in H as [H1 H2].
    rewrite H1. simpl. now apply ints_ltb_asym.
  - rewrite Z.ltb_lt, Z.ltb_ge. lia.
Qed.

Lemma ordinary_less_negtrans (a b c : Version) :
  ordinary_less a b = false -> ordinary_less b c = false ->
  ordinary_less a c = false.
Proof.
  unfold ordinary_less.
  destruct (Z.eqb_spec (rank a) (rank b)) as [Eab | Eab],
           (Z.eqb_spec (rank b) (rank c)) as [Ebc | Ebc],
           (Z.eqb_spec (rank a) (rank c)) as [Eac | Eac];
    rewrite ?Z.ltb_ge; try lia.
  - rewrite <- Eab. intros H1 H2.
    destruct (rank a =? 1); [simpl in *|reflexivity].
    now apply (ints_ltb_negtrans _ (ints b)).
Qed.

(** Two versions without suffix are [==] when their components are. *)
Lemma eq_without_suffix (a b : Version) :
  suffix a = None -> suffix b = None ->
  Version.__eq__ a (PyVersion b) = list_eq component_eq (version a) (version b).
Proof.
  intros Ha Hb. unfold Version.__eq__, Version.normalized_suffix.
  cbn [Version.as_version]. rewrite Ha, Hb.
  now destruct (list_eq component_eq (version a) (version b)).
Qed.

Lemma list_lt_ints (x y : list component) :
  forallb is_int x = true -> forallb is_int y = true ->
  list_lt component_eq component_lt x y =
    Ok (ints_ltb (map (fun c => match c with CInt n => n | CStr _ => 0 end) x)
                 (map (fun c => match c with CInt n => n | CStr _ => 0 end) y)).
Proof.
  revert y. induction x as [|[a|a] x IH]; intros [|[b|b] y]; simpl;
    try discriminate; try reflexivity.
  intros Hx Hy. destruct (a =? b); [now apply IH | reflexivity].
Qed.

Lemma ints_injective (x y : list component) :
  forallb is_int x = true -> forallb is_int y = true ->
  map (fun c => match c with CInt n => n | CStr _ => 0 end) x =
  map (fun c => match c with CInt n => n | CStr _ => 0 end) y ->
  x = y.
Proof.
  revert y. induction x as [|[a|a] x IH]; intros [|[b|b] y]; simpl;
    try discriminate; try reflexivity.
  intros Hx Hy H. injection H as -> H. f_equal. now apply IH.
Qed.

(** On ordinary versions [<] raises nothing and is [ordinary_less]. *)
Lemma lt_ordinary (a b : Version) :
  ordinary a -> ordinary b ->
  Version.__lt__ a (PyVersion b) = Ok (ordinary_less a b).
Proof.
  intros Ha Hb. destruct (ordinary_rank a Ha) as [Sa Ia].
  destruct (ordinary_rank b Hb) as [Sb Ib]. unfold_lt.
  rewrite !eq_without_suffix by (assumption || reflexivity).
  unfold ordinary_less, rank in *.
  change (version Version.lowest) with [CStr "lowest"] in *.
  change (version Version.latest) with [CStr "master"] in *.
  destruct (list_eq component_eq (version a) (version b)) eqn:Eab.
  - apply versions_eq_spec in Eab. unfold ints. rewrite Eab, Z.eqb_refl.
    now rewrite ints_ltb_irrefl, andb_false_r.
  - assert (Hne : version a <> version b).
    { intro H. rewrite H in Eab.
      now rewrite (proj2 (versions_eq_spec _ _) eq_refl) in Eab. }
    destruct (list_eq component_eq (version a) [CStr "lowest"]) eqn:Al;
    destruct (list_eq component_eq (version b) [CStr "lowest"]) eqn:Bl;
    try (apply versions_eq_spec in Al); try (apply versions_eq_spec in Bl);
    try congruence;
    destruct (list_eq component_eq (version a) [CStr "master"]) eqn:At;
    destruct (list_eq component_eq (version b) [CStr "master"]) eqn:Bt;
    try (apply versions_eq_spec in At); try (apply versions_eq_spec in Bt);
    try congruence; try reflexivity.
    simpl. rewrite (list_lt_ints _ _ (Ia eq_refl) (Ib eq_refl)). cbn [bind].
    fold (ints a). fold (ints b). rewrite Sa, Sb. simpl.
    now destruct (ints_ltb (ints a) (ints b)).
Qed.

(** On ordinary versions [<=] raises nothing either. *)
Lemma le_ordinary (a b : Version) :
  ordinary a -> ordinary b ->
  Version.__le__ a (PyVersion b) =
    Ok (ordinary_less a b || list_eq component_eq (version a) (version b)).
Proof.
  intros Ha Hb. unfold Version.__le__. rewrite (lt_ordinary a b Ha Hb). cbn [bind].
  now rewrite (eq_without_suffix a b (proj1 Ha) (proj1 Hb)).
Qed.

(** Not below means above or equal. *)
Lemma ordinary_less_total (a b : Version) :
  ordinary a -> ordinary b ->
  ordinary_less a b = false ->
  ordinary_less b a = true \/ version a = version b.
Proof.
  intros Ha Hb. destruct (ordinary_rank a Ha) as [Sa Ia].
  destruct (ordinary_rank b Hb) as [Sb Ib]. unfold ordinary_less.
  rewrite (Z.eqb_sym (rank b) (rank a)).
  destruct (Z.eqb_spec (rank a) (rank b)) as [E | E].
  - rewrite <- E. destruct (Z.eqb_spec (rank a) 1) as [E1 | E1]; simpl.
    + intro H. apply ints_ltb_total in H as [H | H]; [now left|]. right.
      apply ints_injective; [apply Ia; exact E1 | apply Ib; congruence | exact H].
    + intros _. right. unfold rank in *.
      change (version Version.lowest) with [CStr "lowest"] in *.
      change (version Version.latest) with [CStr "master"] in *.
      destruct (list_eq component_eq (version a) [CStr "lowest"]) eqn:Al;
      destruct (list_eq component_eq (version b) [CStr "lowest"]) eqn:Bl;
      try (apply versions_eq_spec in Al); try (apply versions_eq_spec in Bl);
      try congruence; try lia;
      destruct (list_eq component_eq (version a) [CStr "master"]) eqn:At;
      destruct (list_eq component_eq (version b) [CStr "master"]) eqn:Bt;
      try (apply versions_eq_spec in At); try (apply versions_eq_spec in Bt);
      try congruence; lia.
  - rewrite Z.ltb_ge, Z.ltb_lt. lia.
Qed.

(** X14: on ordinary versions (no suffix; components that are all numbers,
    or a sentinel) the comparison is a strict total order.  [<] raises
    nothing; it is asymmetric and transitive, two versions are [==] or one
    is less than the other, and between versions of numbers [<] is the
    lexicographic order of the numbers. *)
Theorem ordinary_versions_are_ordered (a b c : Version) :
  ordinary a -> ordinary b -> ordinary c ->
  (exists less, Version.__lt__ a (PyVersion b) = Ok less) /\
  (Version.__lt__ a (PyVersion b) = Ok true ->
   Version.__lt__ b (PyVersion a) = Ok false) /\
  (Version.__lt__ a (PyVersion b) = Ok true ->
   Version.__lt__ b (PyVersion c) = Ok true ->
   Version.__lt__ a (PyVersion c) = Ok true) /\
  (Version.__lt__ a (PyVersion b) = Ok true \/
   Version.__eq__ a (PyVersion b) = true \/
   Version.__lt__ b (PyVersion a) = Ok true) /\
  (forallb is_int (version a) = true -> forallb is_int (version b) = true ->
   (Version.__lt__ a (PyVersion b) = Ok true <->
    lexicographic Z.lt (ints a) (ints b))).
Proof.
  intros Ha Hb Hc.
  rewrite (lt_ordinary a b Ha Hb), (lt_ordinary b a Hb Ha),
    (lt_ordinary b c Hb Hc), (lt_ordinary a c Ha Hc).
  split; [eauto|]. split; [|split; [|split]].
  - intros [= H]. f_equal. now apply ordinary_less_asym.
  - intros [= H1] [= H2]. f_equal.
    now apply (R_trans ordinary_less ordinary_less_asym ordinary_less_negtrans a b c).
  - destruct (ordinary_less a b) eqn:E; [now left|]. right.
    destruct (ordinary_less_total a b Ha Hb E) as [H | H].
    + right. now rewrite H.
    + left. rewrite (eq_without_suffix a b (proj1 Ha) (proj1 Hb)).
      now apply versions_eq_spec.
  - intros Ia Ib. rewrite <- ints_ltb_lexicographic.
    assert (Hr : forall v, forallb is_int (version v) = true -> rank v = 1).
    { intros v Hv. unfold rank.
      change (version Version.lowest) with [CStr "lowest"].
      change (version Version.latest) with [CStr "master"].
      destruct (version v) as [|[n|s] l]; [reflexivity | | discriminate].
      reflexivity. }
    unfold ordinary_less. rewrite (Hr a Ia), (Hr b Ib). simpl.
    split; [now intros [= ->] | now intros ->].
Qed.

Lemma ordinary_versions_are_ordered_witness :
  Version.__lt__ (Version.of_str "1.9") (PyStr "1.10") = Ok true /\
  Version.__lt__ (Version.of_str "1.10") (PyStr "1.9") = Ok false /\
  Version.__lt__ Version.lowest (PyStr "1.10") = Ok true.
Proof.
  assert (H9 : ordinary (Version.of_str "1.9")) by (split; [|left]; reflexivity).
  assert (H10 : ordinary (Version.of_str "1.10")) by (split; [|left]; reflexivity).
  assert (Hl : ordinary Version.lowest) by (split; [|right; left]; reflexivity).
  destruct (ordinary_versions_are_ordered (Version.of_str "1.9")
              (Version.of_str "1.10") Version.lowest H9 H10 Hl)
    as (_ & Hasym & _ & _ & Hlex).
  destruct (ordinary_versions_are_ordered Version.lowest (Version.of_str "1.9")
              (Version.of_str "1.10") Hl H9 H10) as (_ & _ & Htrans & _).
  assert (Hlt : Version.__lt__ (Version.of_str "1.9")
                  (PyVersion (Version.of_str "1.10")) = Ok true).
  { apply Hlex; try reflexivity. apply lex_tail, lex_head. reflexivity. }
  split; [exact Hlt|]. split; [exact (Hasym Hlt)|].
  exact (Htrans eq_refl Hlt).
Defined.

(** *** [pick] among ordinary versions *)

Lemma filterM_filter {A : Type} (keep : A -> result bool) (keepb : A -> bool)
    (l : list A) :
  Forall (fun x => keep x = Ok (keepb x)) l ->
  filterM keep l = Ok (filter keepb l).
Proof.
  induction 1 as [|x l Hx _ IH]; simpl; [reflexivity|].
  rewrite Hx, IH. simpl. now destruct (keepb x).
Qed.

(** A key of the dictionary that is [==] to itself is found in it. *)
Lemma dict_get_key {Item : Type} (d : VersionPick.dict Item) (k : Version) :
  In k (map fst d) -> Version.__eq__ k (PyVersion k) = true ->
  exists item, VersionPick.dict_get d k = Some item.
Proof.
  intros Hin Heq. induction d as [|[k' v] d IH]; [contradiction|].
  simpl. destruct (VersionPick.same_key k' k) eqn:E; [eauto|].
  destruct Hin as [Hk | Hin]; [|now apply IH].
  simpl in Hk. subst k'. unfold VersionPick.same_key in E.
  now rewrite String.eqb_refl, Heq in E.
Qed.

(** X15: among ordinary versions [pick] does what it is meant to do.  When
    all keys of the dictionary and the version asked for are ordinary,
    [pick] returns the item of a key that is [<=] the version and that every
    other such key is [<=] to, the greatest of them; and when no key is [<=]
    the version it raises the error that names the version and the keys. *)
Theorem pick_ordinary_greatest
    (Item : Type) (self : VersionPick.t Item) (ver : object)
    (v_dict : VersionPick.dict Item) (q : Version) :
  VersionPick.convert_keys (VersionPick.version_dict self) [] = Ok v_dict ->
  Version.as_version ver = Ok q ->
  Forall ordinary (map fst v_dict) -> ordinary q ->
  (exists k item,
     In k (map fst v_dict) /\
     Version.__le__ k (PyVersion q) = Ok true /\
     (forall k', In k' (map fst v_dict) ->
        Version.__le__ k' (PyVersion q) = Ok true ->
        Version.__le__ k' (PyVersion k) = Ok true) /\
     VersionPick.dict_get v_dict k = Some item /\
     VersionPick.pick self ver = Ok (Some item))
  \/
  ((forall k, In k (map fst v_dict) ->
      Version.__le__ k (PyVersion q) = Ok false) /\
   VersionPick.pick self ver =
     Raise (ValueError (MsgNotFound q (map fst v_dict)))).
Proof.
  intros Hd Hq Hkeys Hord. unfold VersionPick.pick.
  rewrite Hd. cbn [bind]. rewrite Hq. cbn [bind].
  set (keys := map fst v_dict) in *.
  set (keepb := fun k => ordinary_less k q
                         || list_eq component_eq (version k) (version q)).
  assert (Hle : forall k, In k keys ->
            Version.__le__ k (PyVersion q) = Ok (keepb k)).
  { intros k Hk. rewrite Forall_forall in Hkeys. now apply le_ordinary; auto. }
  rewrite (filterM_filter _ keepb keys)
    by (apply Forall_forall; intros k Hk; now apply Hle).
  cbn [bind].
  assert (Hmatch : Forall ordinary (filter keepb keys)).
  { rewrite Forall_forall in *. intros k Hk. apply filter_In in Hk. now apply Hkeys. }
  destruct (sorted_reverse_spec (fun a b => Version.__lt__ a (PyVersion b))
              ordinary ordinary_less lt_ordinary ordinary_less_asym
              ordinary_less_negtrans (filter keepb keys) Hmatch)
    as (r & Hsort & _ & Hhead).
  rewrite Hsort. cbn [bind]. destruct r as [|k r].
  - right. split; [|reflexivity]. intros k Hk. rewrite (Hle k Hk). f_equal.
    destruct (keepb k) eqn:E; [|reflexivity].
    assert (Hin : In k (filter keepb keys)) by (apply filter_In; now split).
    rewrite Hhead in Hin. contradiction.
  - left. destruct Hhead as [Hin Hmax]. apply filter_In in Hin as [Hin Hkeep].
    assert (Hk : ordinary k) by (rewrite Forall_forall in Hkeys; now apply Hkeys).
    destruct (dict_get_key v_dict k Hin) as [item Hitem].
    { rewrite (eq_without_suffix k k (proj1 Hk) (proj1 Hk)).
      now apply versions_eq_spec. }
    exists k, item. split; [assumption|]. split; [now rewrite (Hle k Hin), Hkeep|].
    split; [|split; [assumption | now rewrite Hitem]].
    intros k' Hin' Hle'. rewrite (Hle k' Hin') in Hle'. injection Hle' as Hkeep'.
    assert (Hk' : ordinary k') by (rewrite Forall_forall in Hkeys; now apply Hkeys).
    rewrite (le_ordinary k' k Hk' Hk). f_equal.
    rewrite Forall_forall in Hmax.
    specialize (Hmax k' (proj2 (filter_In keepb k' keys) (conj Hin' Hkeep'))).
    destruct (ordinary_less_total k k' Hk Hk' Hmax) as [H | H].
    + now rewrite H.
    + rewrite <- H, (proj2 (versions_eq_spec _ _) eq_refl). apply orb_true_r.
Qed.

Lemma pick_ordinary_greatest_witness :
  VersionPick.pick
    {| VersionPick.version_dict :=
         [(PyVersion Version.lowest, "A"); (PyStr "2.5.0", "C"); (PyStr "1.10", "B")] |}
    (PyStr "2.0") = Ok (Some "B").
Proof.
  destruct (pick_ordinary_greatest string
              {| VersionPick.version_dict :=
                   [(PyVersion Version.lowest, "A"); (PyStr "2.5.0", "C");
                    (PyStr "1.10", "B")] |}
              (PyStr "2.0")
              [(Version.lowest, "A"); (Version.of_str "2.5.0", "C");
               (Version.of_str "1.10", "B")]
              (Version.of_str "2.0") eq_refl eq_refl)
    as [(k & item & Hin & Hle & Hmax & Hget & Hpick) | [Hnone _]].
  - repeat constructor; first [right; left; reflexivity | left; reflexivity].
  - split; [|left]; reflexivity.
  - rewrite Hpick. f_equal.
    destruct Hin as [<- | [<- | [<- | []]]].
    + specialize (Hmax (Version.of_str "1.10")
                    ltac:(simpl; tauto) eq_refl). discriminate Hmax.
    + discriminate Hle.
    + change (Some "B" = Some item) in Hget. now injection Hget.
  - specialize (Hnone Version.lowest ltac:(simpl; tauto)). discriminate Hnone.
Defined.

(** ** The components of a parsed version *)









(** ** Versions that are equal *)

(** X17: [==] between versions does not depend on the side, and two versions
    built by the constructor that are [==] cannot be told apart by [==] or
    [<], on either side: so [==] is transitive, and [<] respects it. *)
Theorem equal_versions_compare_alike (x y : string) :
  let a := Version.parse_text x in
  let b := Version.parse_text y in
  Version.__eq__ a (PyVersion b) = true ->
  Version.__eq__ b (PyVersion a) = true /\
  (forall o, Version.__eq__ a o = Version.__eq__ b o) /\
  (forall o, Version.__lt__ a o = Version.__lt__ b o) /\
  (forall c, Version.__eq__ c (PyVersion a) = Version.__eq__ c (PyVersion b)) /\
  (forall c, Version.__lt__ c (PyVersion a) = Version.__lt__ c (PyVersion b)).
Proof.
  intros a b H.
  assert (Hsym : Version.__eq__ b (PyVersion a) = true) by now rewrite eq_sym.
  apply eq_true_iff in H as (Hv & n & Ha & Hb).
  assert (Hs : Version.is_None (suffix a) = Version.is_None (suffix b)).
  { destruct (parse_text_normalized x) as (na & Hna & Hxa).
    destruct (parse_text_normalized y) as (nb & Hnb & Hxb).
    fold a in Hna, Hxa. fold b in Hnb, Hxb.
    assert (na = n) by congruence. assert (nb = n) by congruence. subst na nb.
    destruct (suffix a), (suffix b); try reflexivity; exfalso.
    - assert (n = []) by now apply Hxb. subst n.
      apply proj1 in Hxa. now specialize (Hxa eq_refl).
    - assert (n = []) by now apply Hxa. subst n.
      apply proj1 in Hxb. now specialize (Hxb eq_refl). }
  assert (Hleft : forall o, Version.__eq__ a o = Version.__eq__ b o).
  { intro o. unfold Version.__eq__. now rewrite Hv, Ha, Hb. }
  assert (Hright : forall c, Version.__eq__ c (PyVersion a) =
                             Version.__eq__ c (PyVersion b)).
  { intro c. unfold Version.__eq__, Version.as_version. now rewrite Hv, Ha, Hb. }
  repeat split; try assumption.
  - intro o. unfold Version.__lt__.
    destruct (Version.as_version o) as [other|e]; [|reflexivity].
    rewrite !Hleft, Hv, Hs, Ha, Hb. reflexivity.
  - intro c. unfold Version.__lt__, Version.as_version.
    rewrite !Hright, !Hleft, Hv, Hs, Ha, Hb. reflexivity.
Qed.

Lemma equal_versions_compare_alike_witness :
  Version.__lt__ (Version.parse_text "1.0-pre1") (PyStr "1.0-rc1") =
  Version.__lt__ (Version.parse_text "1..0-pre1.0") (PyStr "1.0-rc1").
Proof.
  refine (proj1 (proj2 (proj2
            (equal_versions_compare_alike "1.0-pre1" "1..0-pre1.0" _)))
          (PyStr "1.0-rc1")).
  vm_compute. reflexivity.
Defined.

(** ** Sequence numbers *)

(** X18: objects created one after the other take the sequence numbers
    from the counter on, one by one: the counter ends [n] further, every
    number lies between the two values of the counter, and the numbers rise
    strictly, so no two objects share one. *)
Theorem seq_ids_rise (n : nat) (_seq_cnt : Z) :
  let ids := map Widgetable._seq_id (fst (Widgetable.create n _seq_cnt)) in
  snd (Widgetable.create n _seq_cnt) = _seq_cnt + Z.of_nat n /\
  List.length ids = n /\
  Forall (fun i => _seq_cnt <= i < _seq_cnt + Z.of_nat n) ids /\
  StronglySorted Z.lt ids /\
  NoDup ids.
Proof.
  cbv zeta.
  assert (H : snd (Widgetable.create n _seq_cnt) = _seq_cnt + Z.of_nat n /\
              List.length (map Widgetable._seq_id
                             (fst (Widgetable.create n _seq_cnt))) = n /\
              Forall (fun i => _seq_cnt <= i < _seq_cnt + Z.of_nat n)
                (map Widgetable._seq_id (fst (Widgetable.create n _seq_cnt))) /\
              StronglySorted Z.lt
                (map Widgetable._seq_id (fst (Widgetable.create n _seq_cnt)))).
  { revert _seq_cnt. induction n as [|n IH]; intro c.
    - simpl. repeat split; try constructor. lia.
    - cbn [Widgetable.create Widgetable.__new__].
      specialize (IH (c + 1)).
      destruct (Widgetable.create n (c + 1)) as [os c'].
      cbn [fst snd map Widgetable._seq_id List.length] in *.
      destruct IH as (Hc & Hlen & Hall & Hsorted).
      split; [lia|]. split; [now rewrite Hlen|]. split.
      + constructor; [lia|]. eapply Forall_impl; [|exact Hall].
        cbv beta. intros i Hi. lia.
      + constructor; [exact Hsorted|]. eapply Forall_impl; [|exact Hall].
        cbv beta. intros i Hi. lia. }
  destruct H as (Hc & Hlen & Hall & Hsorted). repeat split; try assumption.
  clear -Hsorted. induction Hsorted as [|i l Hl IH Hi]; constructor; [|exact IH].
  intro Hin. rewrite Forall_forall in Hi. specialize (Hi i Hin). lia.
Qed.
